(** * Job helpers of the serverless worker: [runpod/serverless/modules/rp_job.py]

    A shallow embedding of [get_job], [run_job] and [run_job_generator],
    and the properties of the worker's job lifecycle proved about them. *)

From stdpp Require Import base option list strings gmap fin_maps.
From Stdlib Require Import ZArith Lia Ascii String.

Local Open Scope Z_scope.
Local Open Scope string_scope.

(** ** Python values

    The values that travel through the job helpers are JSON data: the body
    of a poll response, the job, the handler's return value and the result
    envelope.  A [dict] with string keys is a finite map; two dicts are equal
    when they have the same entries, as with Python's [==]. *)

#[warnings="-register-all"]
Inductive pyval : Type :=
  | PNone
  | PBool (b : bool)
  | PInt (n : Z)
  | PStr (s : string)
  | PList (l : list pyval)
  | PDict (d : gmap string pyval).

Abbreviation pydict := (gmap string pyval).

(** [bool(v)]: what [if v:] tests. *)
Definition truthy (v : pyval) : bool :=
  match v with
  | PNone => false
  | PBool b => b
  | PInt n => negb (Z.eqb n 0)
  | PStr s => negb (String.eqb s "")
  | PList l => match l with [] => false | _ :: _ => true end
  | PDict d => negb (bool_decide (d = ∅))
  end.

(** [v is None] *)
Definition is_None (v : pyval) : bool :=
  match v with PNone => true | _ => false end.

(** [v == {}] *)
Definition eq_empty_dict (v : pyval) : bool :=
  match v with PDict d => bool_decide (d = ∅) | _ => false end.

(** [d.get(k, None)] *)
Definition dict_get (d : pydict) (k : string) : pyval :=
  default PNone (d !! k).

(** [d.pop(k, None)]: the value removed and the dict that is left. *)
Definition dict_pop (d : pydict) (k : string) : pyval * pydict :=
  (default PNone (d !! k), delete k d).

(** ** Exceptions and the execution monad

    An exception is described by what the handlers of [rp_job.py] read from
    it: [str(type(err))], [str(err)], and whether it is an instance of
    [Exception], which is what the clauses [except Exception] test
    ([KeyboardInterrupt], [SystemExit] and task cancellation are not). *)

Record pyexc : Type := mk_exc {
  exc_type : string;
  exc_message : string;
  exc_is_Exception : bool
}.

(** [KeyError(k)], raised by [d[k]] when [d] has no key [k]. *)
Definition KeyError (k : string) : pyexc :=
  mk_exc "<class 'KeyError'>" ("'" ++ k ++ "'") true.

Definition TypeError (msg : string) : pyexc :=
  mk_exc "<class 'TypeError'>" msg true.

Definition AttributeError (msg : string) : pyexc :=
  mk_exc "<class 'AttributeError'>" msg true.

Inductive outcome (A : Type) : Type :=
  | Ok (a : A)
  | Raise (e : pyexc).
Arguments Ok {A} a.
Arguments Raise {A} e.

(** The job is a dict shared with the handler, which can change it: it is
    the state threaded through every call. *)
Definition M (A : Type) : Type := pydict → outcome A * pydict.

#[global] Instance M_ret : MRet M := λ A (a : A) job, (Ok a, job).

#[global] Instance M_bind : MBind M := λ A B (f : A → M B) (c : M A) job,
  match c job with
  | (Ok a, job') => f a job'
  | (Raise e, job') => (Raise e, job')
  end.

Definition raise {A} (e : pyexc) : M A := λ job, (Raise e, job).

(** [job[k]] *)
Definition job_getitem (k : string) : M pyval := λ job,
  match job !! k with
  | Some v => (Ok v, job)
  | None => (Raise (KeyError k), job)
  end.

(** A log call of the form [log.level(f'{job["id"]} | ...')].  The message is
    built first, which reads [job["id"]]; the logger's sink is outside the
    program.  The id of a job is a string (the queue's contract), and a
    string is formatted as it is. *)
Definition log_job_id : M unit := _ ← job_getitem "id"; mret ().

(** ** Formatting a value for a log line

    [f'{v}'] calls [str(v)], which raises for two kinds of JSON data: a
    [ValueError] when an integer has more decimal digits than the
    interpreter converts ([sys.get_int_max_str_digits()], 0 for no limit),
    and a [RecursionError] when containers are nested deeper than the
    recursion limit leaves room for.  Both are instances of [Exception]. *)

Section Formatting.

(** [sys.get_int_max_str_digits()] *)
Variable max_str_digits : Z.
(** The levels of nested containers, below the outermost one, that the
    recursion limit leaves room for at the log calls of [run_job]. *)
Variable repr_depth : nat.
(** [str(type(err))] and [str(err)] of the exception that [str(v)] raises
    when it raises: which of the two limits is met first depends on the
    order of the entries, and the messages on the interpreter. *)
Variable str_error : pyval → string * string.

Definition too_many_digits (n : Z) : bool :=
  Z.ltb 0 max_str_digits && Z.leb (10 ^ max_str_digits) (Z.abs n).

(** An integer somewhere in [v] is too long to be converted. *)
Fixpoint has_long_int (v : pyval) : bool :=
  match v with
  | PInt n => too_many_digits n
  | PList l => existsb has_long_int l
  | PDict d => map_fold (λ _ x found, has_long_int x || found) false d
  | _ => false
  end.

(** How deep the containers of [v] nest: 0 for a scalar, 1 for a container
    of scalars. *)
Fixpoint depth (v : pyval) : nat :=
  match v with
  | PList l => S (foldr (λ x n, Nat.max (depth x) n) 0%nat l)
  | PDict d => S (map_fold (λ _ x n, Nat.max (depth x) n) 0%nat d)
  | _ => 0%nat
  end.

(** [str(v)]: the exception it raises, if any. *)
Definition str_raises (v : pyval) : option pyexc :=
  if has_long_int v || Nat.ltb (S repr_depth) (depth v)
  then Some (mk_exc (str_error v).1 (str_error v).2 true)
  else None.

(** A log call of the form [log.level(f'{job["id"]} | ... {v}')]: the id
    is read first, then [v] is formatted. *)
Definition log_value (v : pyval) : M unit :=
  log_job_id;;
  match str_raises v with
  | Some err => raise err
  | None => mret ()
  end.

End Formatting.

(** [try: body except Exception as err: handler err] *)
Definition try_except {A} (body : M A) (handler : pyexc → M A) : M A := λ job,
  match body job with
  | (Raise err, job') =>
      if exc_is_Exception err then handler err job' else (Raise err, job')
  | r => r
  end.

(** [try: body finally: final]: [final] always runs, and an exception of
    its own replaces the outcome of [body]. *)
Definition try_finally {A} (body : M A) (final : M unit) : M A := λ job,
  let '(r, job') := body job in
  match final job' with
  | (Ok _, job'') => (r, job'')
  | (Raise e, job'') => (Raise e, job'')
  end.

(** ** [run_job] *)

(** What [handler(job)] returns: a value, or an awaitable whose [await]
    runs the rest of the handler.  Handlers are taken to terminate. *)
Inductive handler_return : Type :=
  | HValue (v : pyval)
  | HAwaitable (aw : M pyval).

Definition handler : Type := M handler_return.

(** Lines 120-138: the result envelope built from the handler's output.
    The two [pop]s act on the dict the handler returned; when that dict is
    the job itself the job loses these two entries too, which nothing in
    [run_job] reads afterwards. *)
Definition normalize (job_output : pyval) : pydict :=
  let run_result :=
    match job_output with
    | PDict d =>
        let '(error_msg, d) := dict_pop d "error" in
        let '(refresh_worker, d) := dict_pop d "refresh_worker" in
        let run_result : pydict := {[ "output" := PDict d ]} in
        let run_result :=
          if truthy error_msg then <[ "error" := error_msg ]> run_result
          else run_result in
        if truthy refresh_worker then <[ "stopPod" := PBool true ]> run_result
        else run_result
    | PBool _ => {[ "output" := job_output ]}
    | _ => {[ "output" := job_output ]}
    end in
  if eq_empty_dict (dict_get run_result "output")
  then delete "output" run_result
  else run_result.

(** The entries of a dict output that are left once [error] and
    [refresh_worker] have been popped. *)
Definition remaining (d : pydict) : pydict :=
  delete "refresh_worker" (delete "error" d).

Section RunJob.

(** The interpreter's limits on [str] (see [str_raises]). *)
Variable max_str_digits : Z.
Variable repr_depth : nat.
Variable str_error : pyval → string * string.
(** [rp_tips.check_return_size], which is not part of these sources:
    [None] when it returns, [Some e] when it raises [e]. *)
Variable check_return_size : pydict → option pyexc.
(** [json.dumps] *)
Variable json_dumps : pyval → string.
(** [traceback.format_exc()] while the exception is being handled. *)
Variable format_exc : pyexc → string.
(** [os.environ] *)
Variable environ : gmap string string.
(** [runpod.version.__version__] *)
Variable runpod_version : string.

Definition os_environ_get (k dflt : string) : string :=
  default dflt (environ !! k).

(** Lines 143-150. *)
Definition error_info (err : pyexc) : pydict :=
  {[ "error_type" := PStr (exc_type err);
     "error_message" := PStr (exc_message err);
     "error_traceback" := PStr (format_exc err);
     "hostname" := PStr (os_environ_get "RUNPOD_POD_HOSTNAME" "unknown");
     "worker_id" := PStr (os_environ_get "RUNPOD_POD_ID" "unknown");
     "runpod_version" := PStr runpod_version ]}.

(** Lines 115-116: call the handler and await what it returns when that
    is awaitable. *)
Definition invoke (handler : handler) : M pyval :=
  handler_return ← handler;
  match handler_return with
  | HAwaitable aw => aw
  | HValue v => mret v
  end.

(** The envelope of a captured exception (line 154). *)
Definition captured (err : pyexc) : pydict :=
  {[ "error" := PStr (json_dumps (PDict (error_info err))) ]}.

(** Lines 115-140, the body of the [try]: how it is left, and the value of
    [run_result] then, which starts as [run_result]. *)
Definition try_body (handler : handler) (run_result : pydict) (job : pydict)
  : outcome unit * pydict * pydict :=
  match (job_output ← invoke handler;
         log_value max_str_digits repr_depth str_error job_output;;
         mret job_output) job with
  | (Raise err, job) => (Raise err, run_result, job)
  | (Ok job_output, job) =>
      let run_result := normalize job_output in
      match check_return_size run_result with
      | Some err => (Raise err, run_result, job)
      | None => (Ok (), run_result, job)
      end
  end.

(** Lines 114-154, the [try] statement with its [except] clause. *)
Definition try_statement (handler : handler) (run_result : pydict) (job : pydict)
  : outcome unit * pydict * pydict :=
  let '(tried, run_result, job) := try_body handler run_result job in
  match tried with
  | Ok _ => (Ok (), run_result, job)
  | Raise err =>
      if exc_is_Exception err then
        match log_job_id job with
        | (Raise e, job) => (Raise e, run_result, job)
        | (Ok _, job) => (Ok (), captured err, job)
        end
      else (Raise err, run_result, job)
  end.

(** [run_job(handler, job)]: what it returns or raises, and the job as the
    handler leaves it.  The [finally] clause (line 157) formats
    [run_result], whatever way the [try] statement was left; an exception of
    its own replaces the one on its way.  When the handler's output is the
    job itself, or a part of it, the two [pop]s of [normalize] remove the
    entries from the job as well: the job component does not follow that. *)
Definition run_job (handler : handler) (job : pydict) : outcome pydict * pydict :=
  match log_job_id job with
  | (Raise e, job) => (Raise e, job)
  | (Ok _, job) =>
      let run_result : pydict := {[ "error" := PStr "No output from handler." ]} in
      let '(tried, run_result, job) := try_statement handler run_result job in
      match log_value max_str_digits repr_depth str_error (PDict run_result) job with
      | (Raise e, job) => (Raise e, job)
      | (Ok _, job) =>
          match tried with
          | Ok _ => (Ok run_result, job)
          | Raise err => (Raise err, job)
          end
      end
  end.

(** The envelope for a handler that has resolved to [r]: the normalized
    value, or the captured exception of the handler, of the formatting of
    its output or of the size check. *)
Definition settled (r : outcome pyval) : pydict :=
  match r with
  | Ok v =>
      match str_raises max_str_digits repr_depth str_error v with
      | Some err => captured err
      | None =>
          match check_return_size (normalize v) with
          | None => normalize v
          | Some err => captured err
          end
      end
  | Raise err => captured err
  end.

End RunJob.

(** ** [run_job_generator] *)

(** An iterator positioned at [it_start]: [it_next] yields a value and the
    next position, ends the iteration ([None]) or raises.  It runs the
    handler's code, so it can change the job too. *)
Record iterator : Type := mk_iter {
  it_state : Type;
  it_start : it_state;
  it_next : it_state → M (option (pyval * it_state))
}.

(** [next(it)] / [await anext(it)] *)
Definition next (it : iterator) : M (option (pyval * iterator)) :=
  r ← it_next it (it_start it);
  mret (match r with
        | Some (v, s) => Some (v, mk_iter (it_state it) s (it_next it))
        | None => None
        end).

(** The object a streaming handler returns, by what the two loops do with
    it first: [for] takes [iter(obj)], [async for] takes [aiter(obj)];
    either raises when the object does not support it. *)
Record iterable : Type := mk_iterable {
  py_iter : M iterator;
  py_aiter : M iterator
}.

Record gen_handler : Type := mk_gen_handler {
  isasyncgenfunction : bool;
  call : M iterable
}.

(** Where the generator [run_job_generator(handler, job)] is suspended:
    before its first statement, at the [yield] of the loop with the producer
    [it] still to draw from, or at the [yield] of the [except] clause. *)
Inductive gen_state : Type :=
  | GStart
  | GLoop (it : iterator)
  | GAfterError.

(** [try: body finally: final] in a generator: [body] runs up to its next
    [yield] ([Some]), where the generator is suspended and [final] has not
    run; it runs when [body] ends or raises. *)
Definition finally_at_exit {A} (body : M (option A)) (final : M unit) : M (option A) :=
  λ job,
  match body job with
  | (Ok (Some y), job') => (Ok (Some y), job')
  | (r, job') =>
      match final job' with
      | (Ok _, job'') => (r, job'')
      | (Raise e, job'') => (Raise e, job'')
      end
  end.

Definition newline : string := String "010"%char EmptyString.

Section RunJobGenerator.

Variable format_exc : pyexc → string.

(** One turn of the loop of lines 172-176, up to its [yield]. *)
Definition loop_turn (job_output : iterator) : M (option (pydict * gen_state)) :=
  r ← next job_output;
  match r with
  | Some (output_partial, job_output') =>
      mret (Some ({[ "output" := output_partial ]}, GLoop job_output'))
  | None => mret None
  end.

(** Lines 177-179. *)
Definition on_error (err : pyexc) : M (option (pydict * gen_state)) :=
  log_job_id;;
  mret (Some ({[ "error" := PStr ("handler: " ++ exc_message err ++ " "
                                   ++ newline ++ "traceback: " ++ format_exc err) ]},
              GAfterError)).

(** Lines 170-175: the producer the loop draws from. *)
Definition producer (handler : gen_handler) : M iterator :=
  job_output ← call handler;
  if isasyncgenfunction handler
  then py_aiter job_output
  else py_iter job_output.

(** The generator resumed at [st] and run up to its next [yield]:
    [Some (item, st')] is the item yielded and the new suspension point,
    [None] the end of the generator. *)
Definition run_job_generator (handler : gen_handler) (st : gen_state)
  : M (option (pydict * gen_state)) :=
  match st with
  | GStart =>
      finally_at_exit
        (try_except (it ← producer handler; loop_turn it) on_error)
        log_job_id
  | GLoop it =>
      finally_at_exit (try_except (loop_turn it) on_error) log_job_id
  | GAfterError => log_job_id;; mret None
  end.

(** How the consumption of the generator stands. *)
Inductive gen_end : Type :=
  | Finished
  | Failed (e : pyexc)
  | Suspended (st : gen_state).

(** [async for item in run_job_generator(handler, job)], for at most
    [fuel] resumptions: the items received and how the generator stands. *)
Fixpoint consume (fuel : nat) (handler : gen_handler) (st : gen_state) (job : pydict)
  : list pydict * gen_end * pydict :=
  match fuel with
  | O => ([], Suspended st, job)
  | S fuel' =>
      match run_job_generator handler st job with
      | (Ok (Some (item, st')), job') =>
          let '(items, e, job'') := consume fuel' handler st' job' in
          (item :: items, e, job'')
      | (Ok None, job') => ([], Finished, job')
      | (Raise e, job') => ([], Failed e, job')
      end
  end.

End RunJobGenerator.


(** ** [get_job] *)

(** [type(v).__name__] *)
Definition type_name (v : pyval) : string :=
  match v with
  | PNone => "NoneType"
  | PBool _ => "bool"
  | PInt _ => "int"
  | PStr _ => "str"
  | PList _ => "list"
  | PDict _ => "dict"
  end.

(** [v[k]] for a string [k]. *)
Definition py_getitem (v : pyval) (k : string) : outcome pyval :=
  match v with
  | PDict d =>
      match d !! k with
      | Some x => Ok x
      | None => Raise (KeyError k)
      end
  | PList _ => Raise (TypeError "list indices must be integers or slices, not str")
  | PStr _ => Raise (TypeError "string indices must be integers, not 'str'")
  | _ => Raise (TypeError ("'" ++ type_name v ++ "' object is not subscriptable"))
  end.

(** What the server does with one poll: [session.get] raises, or a response
    arrives with its status and the outcome of [await response.json()]. *)
Inductive poll : Type :=
  | GetRaises (e : pyexc)
  | Response (status : Z) (json : outcome pyval).

(** How the [try] block of one turn of the loop is left. *)
Inductive flow : Type :=
  | FallThrough
  | Continue
  | ReturnNone.

(** Lines 53-87: the [try] block of one turn, entered with
    [next_job = None].  The value of [next_job] when the block is left, and
    how it is left. *)
Definition try_block (p : poll) (retry : bool) : pyval * outcome flow :=
  match p with
  | GetRaises e => (PNone, Raise e)
  | Response status json =>
      if Z.eqb status 204 then
        (PNone, Ok (if negb retry then ReturnNone else Continue))
      else if Z.eqb status 400 then
        (PNone, Ok (if negb retry then ReturnNone else Continue))
      else if negb (Z.eqb status 200) then
        (PNone, Ok (if negb retry then ReturnNone else Continue))
      else
        match json with
        | Raise e => (PNone, Raise e)
        | Ok next_job =>
            match next_job with
            | PDict d =>
                let job_id := dict_get d "id" in
                let job_input := dict_get d "input" in
                if is_None job_id || is_None job_input
                then (PNone, Ok FallThrough)
                else (next_job, Ok FallThrough)
            | _ =>
                (next_job,
                 Raise (AttributeError ("'" ++ type_name next_job
                                        ++ "' object has no attribute 'get'")))
            end
        end
  end.

(** What a call of [get_job] has done: the requests it sent, the tracked
    jobs, the responses it has not read, and what it returned
    ([None]: it is still waiting for a response). *)
Record polled (Jobs : Type) : Type := mk_polled {
  returned : option (outcome pyval);
  requests : list string;
  job_list : Jobs;
  unread : list poll
}.
Arguments mk_polled {Jobs}.
Arguments returned {Jobs}.
Arguments requests {Jobs}.
Arguments job_list {Jobs}.
Arguments unread {Jobs}.

Definition sent {Jobs} (url : string) (r : polled Jobs) : polled Jobs :=
  mk_polled (returned r) (url :: requests r) (job_list r) (unread r).

Section GetJob.

(** [worker_state.Jobs], which is not part of these sources: the tracked
    jobs, [get_job_list()] whose truth value becomes the busy flag, and
    [add_job(job_id)]. *)
Variable Jobs : Type.
Variable get_job_list : Jobs → pyval.
Variable add_job : pyval → Jobs → Jobs.
(** The module constant [JOB_GET_URL], computed at import from the
    environment and [worker_state.WORKER_ID]. *)
Variable JOB_GET_URL : string.

Definition _job_get_url (jobs : Jobs) : string :=
  let job_in_progress := if truthy (get_job_list jobs) then "1" else "0" in
  JOB_GET_URL ++ "&job_in_progress=" ++ job_in_progress.

(** Lines 97-103, after the loop. *)
Definition confirm (next_job : pyval) (jobs : Jobs) : outcome pyval * Jobs :=
  match py_getitem next_job "id" with
  | Raise e => (Raise e, jobs)
  | Ok _ =>
      if truthy next_job then
        match py_getitem next_job "id" with
        | Raise e => (Raise e, jobs)
        | Ok job_id => (Ok next_job, add_job job_id jobs)
        end
      else (Ok next_job, jobs)
  end.

(** Lines 92-95 and the test of the loop, once the [try] statement is
    left with [next_job]: [rest] are the responses not read yet and
    [again] is what the next turn of the loop does. *)
Definition after_try (next_job : pyval) (retry : bool) (jobs : Jobs)
    (rest : list poll) (again : polled Jobs) : polled Jobs :=
  if is_None next_job then
    if negb retry then mk_polled (Some (Ok PNone)) [] jobs rest
    else again
  else
    let '(r, jobs') := confirm next_job jobs in
    mk_polled (Some r) [] jobs' rest.

(** One turn of the loop of lines 51-95, on the response [p]. *)
Definition turn (p : poll) (retry : bool) (jobs : Jobs)
    (rest : list poll) (again : polled Jobs) : polled Jobs :=
  let '(next_job, how) := try_block p retry in
  match how with
  | Ok Continue => again
  | Ok ReturnNone => mk_polled (Some (Ok PNone)) [] jobs rest
  | Ok FallThrough => after_try next_job retry jobs rest again
  | Raise err =>
      if exc_is_Exception err then after_try next_job retry jobs rest again
      else mk_polled (Some (Raise err)) [] jobs rest
  end.

(** [get_job(session, retry)]: [session] is the list of what the server
    does with the successive polls, one request being sent per turn. *)
Fixpoint get_job (session : list poll) (retry : bool) (jobs : Jobs) : polled Jobs :=
  match session with
  | [] => mk_polled None [] jobs []
  | p :: session' =>
      sent (_job_get_url jobs)
        (turn p retry jobs session' (get_job session' retry jobs))
  end.

End GetJob.

(** Runs one turn of the loop of [get_job] in a goal. *)
Ltac get_job_turn := cbn [get_job]; unfold turn.

(** Unfolds one turn of the loop of [get_job], keeping [turn]. *)
Ltac get_job_unfold := cbn [get_job].

(** A value that [get_job] accepts as a job: a dict whose "id" and "input"
    are present and not [None]. *)
Definition valid_job (v : pyval) : Prop :=
  ∃ d, v = PDict d ∧ dict_get d "id" ≠ PNone ∧ dict_get d "input" ≠ PNone.

(** ** Sample collaborators, jobs and handlers *)

(** A size policy that accepts every result. *)
Definition accept_all : pydict → option pyexc := λ _, None.

Definition ValueError (msg : string) : pyexc :=
  mk_exc "<class 'ValueError'>" msg true.

(** A size policy that rejects every result. *)
Definition reject_all : pydict → option pyexc :=
  λ _, Some (ValueError "too large").

Definition sample_dumps : pyval → string := λ v, "<" ++ type_name v ++ ">".
Definition sample_format_exc : pyexc → string :=
  λ e, "Traceback (most recent call last): " ++ exc_message e.
Definition sample_environ : gmap string string :=
  {[ "RUNPOD_POD_ID" := "worker-7" ]}.

Definition sample_job : pydict :=
  {[ "id" := PStr "job-1"; "input" := PDict {[ "prompt" := PStr "hi" ]} ]}.

(** [def handler(job): return v] *)
Definition returning (v : pyval) : handler := mret (HValue v).

(** [async def handler(job): return v] *)
Definition async_returning (v : pyval) : handler := mret (HAwaitable (mret v)).


(** The generator object of [yield from vs; raise e]. *)
Definition yields_then_raise (vs : list pyval) (e : pyexc) : iterator :=
  mk_iter (list pyval) vs
    (λ s, match s with
          | v :: s' => mret (Some (v, s'))
          | [] => raise e
          end).

(** [aiter(obj)] on an object of type [what] that has no [__aiter__]. *)
Definition no_aiter (what : string) : M iterator :=
  raise (TypeError ("'async for' requires an object with __aiter__ method, got "
                    ++ what)).

(** A generator function [def handler(job): yield from vs; raise e]. *)
Definition sync_generator (vs : list pyval) (e : pyexc) : gen_handler :=
  mk_gen_handler false
    (mret (mk_iterable (mret (yields_then_raise vs e))
                       (no_aiter "generator"))).

(** Solves [is_Some (job !! "id")] on a closed job. *)
Ltac has_id := eexists; vm_compute; reflexivity.


(** The type and message of the [ValueError] that CPython 3.11 raises on
    an integer of more than 4300 digits. *)
Definition sample_str_error : pyval → string * string :=
  λ _, ("<class 'ValueError'>",
        "Exceeds the limit (4300 digits) for integer string conversion").

(** [run_job] with the sample collaborators, on an interpreter that
    converts integers of any length (a limit of 0, or a Python before 3.11)
    and formats 50 levels of nested containers. *)
Definition sample_run_job : handler → pydict → outcome pydict * pydict :=
  run_job 0 50 sample_str_error
    accept_all sample_dumps sample_format_exc sample_environ "1.2.3".

(** The same on an interpreter with the default limit of 4300 digits. *)
Definition default_run_job : handler → pydict → outcome pydict * pydict :=
  run_job 4300 50 sample_str_error
    accept_all sample_dumps sample_format_exc sample_environ "1.2.3".

(** A job that has lost its id. *)
Definition job_without_id : pydict := {[ "input" := PDict ∅ ]}.

(** A tracker of job ids kept as a list. *)
Definition list_get_job_list (jobs : list pyval) : pyval := PList jobs.
Definition list_add_job (job_id : pyval) (jobs : list pyval) : list pyval :=
  job_id :: jobs.

(** [get_job] with that tracker. *)
Definition sample_get_job : list poll → bool → list pyval → polled (list pyval) :=
  get_job (list pyval) list_get_job_list list_add_job "https://api.example/v2/job-take?gpu=A".

(** ** Further producers, handlers and exceptions *)

(** A producer that, drawn from with the job [job], yields the values [vs]
    in turn, and is then at [it'] with the job [job']. *)
Fixpoint yields (vs : list pyval) (it : iterator) (job : pydict)
    (it' : iterator) (job' : pydict) : Prop :=
  match vs with
  | [] => it = it' ∧ job = job'
  | v :: vs' =>
      ∃ it1 job1, next it job = (Ok (Some (v, it1)), job1)
                  ∧ yields vs' it1 job1 it' job'
  end.

(** The envelopes [{"output": v}] of the values [vs]. *)
Definition outputs (vs : list pyval) : list pydict :=
  (λ v : pyval, ({[ "output" := v ]} : pydict)) <$> vs.

(** [def handler(job): yield from vs] *)
Definition yields_then_stop (vs : list pyval) : iterator :=
  mk_iter (list pyval) vs
    (λ s, match s with
          | v :: s' => mret (Some (v, s'))
          | [] => mret None
          end).

(** A generator function that yields [vs] and returns. *)
Definition finite_generator (vs : list pyval) : gen_handler :=
  mk_gen_handler false
    (mret (mk_iterable (mret (yields_then_stop vs)) (no_aiter "generator"))).


(** An exception that is not an [Exception]. *)
Definition KeyboardInterrupt : pyexc :=
  mk_exc "<class 'KeyboardInterrupt'>" "" false.


(** The output [{"refresh_worker": True, "n": 10**5000}], whose integer is
    too long for an interpreter with the default limit of 4300 digits. *)
Definition unformattable_output : pyval :=
  PDict {[ "refresh_worker" := PBool true; "n" := PInt (10 ^ 5000) ]}.

(** [def handler(job): del job["id"]; return v] *)
Definition forgetful (v : pyval) : handler :=
  λ job, (Ok (HValue v), delete "id" job).

(** ** [rp_cleanup.clean]

    The working directory as a tree of regular files and directories.  A
    path is the list of its components from the working directory, each a
    plain name; every operation the program asks for is permitted by the
    system, so the only errors are those of the tree's shape (a missing
    entry, a file where a directory is expected, or the reverse). *)

#[warnings="-register-all"]
Inductive fs_node : Type :=
  | FsFile (content : string)
  | FsDir (entries : gmap string fs_node).

Abbreviation directory := (gmap string fs_node).

(** A path component that names an entry: not empty, not "." or "..", and
    without a separator.  [resolve] and [rmtree] read a path as a list of
    such names; a path with another component (".", "..", an absolute path)
    is not described by them. *)
Definition plain_name (name : string) : bool :=
  negb (String.eqb name "") && negb (String.eqb name ".")
  && negb (String.eqb name "..")
  && forallb (λ c, negb (Ascii.eqb c "/")) (list_ascii_of_string name).

Definition plain_path (path : list string) : Prop :=
  Forall (λ name, plain_name name = true) path.

(** The entry a path of plain names leads to, if any. *)
Fixpoint resolve (path : list string) (cwd : directory) : option fs_node :=
  match path with
  | [] => None
  | name :: rest =>
      match rest with
      | [] => cwd !! name
      | _ :: _ =>
          match cwd !! name with
          | Some (FsDir entries) => resolve rest entries
          | _ => None
          end
      end
  end.

(** [shutil.rmtree(path, ignore_errors=True)] on a path of plain names: a
    directory is removed with all it contains; on a missing path or a
    regular file the error is ignored and nothing changes. *)
Fixpoint rmtree (path : list string) (cwd : directory) : directory :=
  match path with
  | [] => cwd
  | name :: rest =>
      match cwd !! name with
      | Some (FsDir entries) =>
          match rest with
          | [] => delete name cwd
          | _ :: _ => <[ name := FsDir (rmtree rest entries) ]> cwd
          end
      | _ => cwd
      end
  end.

(** [os.path.exists(name)] *)
Definition os_path_exists (name : string) (cwd : directory) : bool :=
  bool_decide (is_Some (cwd !! name)).

Definition IsADirectoryError (name : string) : pyexc :=
  mk_exc "<class 'IsADirectoryError'>"
    ("[Errno 21] Is a directory: '" ++ name ++ "'") true.

Definition FileNotFoundError (name : string) : pyexc :=
  mk_exc "<class 'FileNotFoundError'>"
    ("[Errno 2] No such file or directory: '" ++ name ++ "'") true.

(** [os.remove(name)] *)
Definition os_remove (name : string) (cwd : directory) : outcome unit * directory :=
  match cwd !! name with
  | Some (FsFile _) => (Ok (), delete name cwd)
  | Some (FsDir _) => (Raise (IsADirectoryError name), cwd)
  | None => (Raise (FileNotFoundError name), cwd)
  end.

(** [clean(folder_list)]: what it returns or raises, and the working
    directory it leaves.  The three fixed paths are plain names; the
    properties that depend on the folders of [folder_list] assume that
    theirs are. *)
Definition clean (folder_list : list (list string)) (cwd : directory)
  : outcome unit * directory :=
  let cwd := rmtree ["input_objects"] cwd in
  let cwd := rmtree ["output_objects"] cwd in
  let '(removed, cwd) :=
    if os_path_exists "output.zip" cwd
    then os_remove "output.zip" cwd
    else (Ok (), cwd) in
  match removed with
  | Raise e => (Raise e, cwd)
  | Ok _ => (Ok (), foldl (λ cwd folder, rmtree folder cwd) cwd folder_list)
  end.

(** A path that leads to a directory. *)
Definition is_directory (path : list string) (cwd : directory) : Prop :=
  ∃ entries, resolve path cwd = Some (FsDir entries).

(** A working directory after a job: downloaded inputs, uploaded outputs,
    the archive, a scratch folder with a sub-folder, and a file to keep. *)
Definition sample_cwd : directory :=
  {[ "input_objects" := FsDir {[ "in.png" := FsFile "png" ]};
     "output_objects" := FsDir ∅;
     "output.zip" := FsFile "zip";
     "scratch" := FsDir {[ "tmp" := FsDir {[ "a.txt" := FsFile "a" ]};
                           "keep.txt" := FsFile "k" ]};
     "handler.py" := FsFile "code" ]}.

(** ** Stepping rules of the monad *)

Lemma bind_ok {A B} (c : M A) (f : A → M B) (job job' : pydict) (a : A) :
  c job = (Ok a, job') → (c ≫= f) job = f a job'.
Proof. intros H. unfold mbind, M_bind. by rewrite H. Qed.

Lemma bind_raise {A B} (c : M A) (f : A → M B) (job job' : pydict) (e : pyexc) :
  c job = (Raise e, job') → (c ≫= f) job = (Raise e, job').
Proof. intros H. unfold mbind, M_bind. by rewrite H. Qed.

Lemma log_job_id_ok (job : pydict) :
  is_Some (job !! "id") → log_job_id job = (Ok (), job).
Proof.
  intros [i Hi]. unfold log_job_id.
  erewrite bind_ok; [reflexivity |]. unfold job_getitem. by rewrite Hi.
Qed.

Lemma log_job_id_raise (job : pydict) :
  job !! "id" = None → log_job_id job = (Raise (KeyError "id"), job).
Proof.
  intros Hi. unfold log_job_id.
  erewrite bind_raise; [reflexivity |]. unfold job_getitem. by rewrite Hi.
Qed.

Lemma try_except_ok {A} (body : M A) (hdl : pyexc → M A) (job job' : pydict) (a : A) :
  body job = (Ok a, job') → try_except body hdl job = (Ok a, job').
Proof. intros H. unfold try_except. by rewrite H. Qed.


Lemma try_except_passed {A} (body : M A) (hdl : pyexc → M A) (job job' : pydict) (e : pyexc) :
  body job = (Raise e, job') → exc_is_Exception e = false →
  try_except body hdl job = (Raise e, job').
Proof. intros H He. unfold try_except. by rewrite H, He. Qed.

Lemma try_finally_ok {A} (body : M A) (final : M unit) (job job' job'' : pydict)
    (r : outcome A) :
  body job = (r, job') → final job' = (Ok (), job'') →
  try_finally body final job = (r, job'').
Proof. intros H Hf. unfold try_finally. by rewrite H, Hf. Qed.

Lemma try_finally_raise {A} (body : M A) (final : M unit) (job job' job'' : pydict)
    (r : outcome A) (e : pyexc) :
  body job = (r, job') → final job' = (Raise e, job'') →
  try_finally body final job = (Raise e, job'').
Proof. intros H Hf. unfold try_finally. by rewrite H, Hf. Qed.


(** ** The envelope built by [normalize] *)

Lemma normalize_dict_error (d : pydict) :
  normalize (PDict d) !! "error" =
  if truthy (dict_get d "error") then Some (dict_get d "error") else None.
Proof.
  unfold normalize, dict_pop, dict_get. cbn -[truthy].
  rewrite lookup_delete_ne by done.
  destruct (truthy (default PNone (d !! "error"))),
           (truthy (default PNone (d !! "refresh_worker")));
    simplify_map_eq; case_bool_decide; by simplify_map_eq.
Qed.

Lemma normalize_dict_stopPod (d : pydict) :
  normalize (PDict d) !! "stopPod" =
  if truthy (dict_get d "refresh_worker") then Some (PBool true) else None.
Proof.
  unfold normalize, dict_pop, dict_get. cbn -[truthy].
  rewrite lookup_delete_ne by done.
  destruct (truthy (default PNone (d !! "error"))),
           (truthy (default PNone (d !! "refresh_worker")));
    simplify_map_eq; case_bool_decide; by simplify_map_eq.
Qed.

Lemma normalize_dict_output (d : pydict) :
  normalize (PDict d) !! "output" =
  if bool_decide (remaining d = ∅) then None else Some (PDict (remaining d)).
Proof.
  unfold normalize, dict_pop, dict_get, remaining. cbn -[truthy].
  rewrite lookup_delete_ne by done.
  destruct (truthy (default PNone (d !! "error"))),
           (truthy (default PNone (d !! "refresh_worker")));
    simplify_map_eq; case_bool_decide; by simplify_map_eq.
Qed.

Lemma normalize_dict_keys (d : pydict) (k : string) :
  k ≠ "output" → k ≠ "error" → k ≠ "stopPod" → normalize (PDict d) !! k = None.
Proof.
  intros Ho He Hs.
  unfold normalize, dict_pop, dict_get. cbn -[truthy].
  destruct (truthy (default PNone (d !! "error"))),
           (truthy (default PNone (delete "error" d !! "refresh_worker")));
    simplify_map_eq; case_bool_decide; by simplify_map_eq.
Qed.

Lemma normalize_None : normalize PNone = {[ "output" := PNone ]}.
Proof. reflexivity. Qed.

Lemma normalize_empty_dict : normalize (PDict ∅) = ∅.
Proof. apply map_eq. intros k. unfold normalize. cbn. by simplify_map_eq. Qed.

(** ** Formatting: proofs *)

Section FormattingProofs.

Variable max_str_digits : Z.
Variable repr_depth : nat.
Variable str_error : pyval → string * string.

Local Abbreviation str_raises := (str_raises max_str_digits repr_depth str_error).
Local Abbreviation log_value := (log_value max_str_digits repr_depth str_error).

(** What formatting raises is an instance of [Exception]. *)
Lemma str_raises_Exception (v : pyval) (e : pyexc) :
  str_raises v = Some e → exc_is_Exception e = true.
Proof. unfold str_raises. case_match; [| done]. by intros [= <-]. Qed.

(** A dict whose values are strings or [None] is always formatted. *)
Lemma str_raises_flat (d : pydict) :
  map_Forall (λ _ x, (∃ s, x = PStr s) ∨ x = PNone) d →
  str_raises (PDict d) = None.
Proof.
  intros Hflat. unfold str_raises. cbn [has_long_int depth].
  assert (map_fold (λ _ x found, has_long_int max_str_digits x || found) false d = false)
    as ->.
  { revert Hflat.
    apply (map_fold_weak_ind
      (λ r (m : pydict),
         map_Forall (λ _ x, (∃ s, x = PStr s) ∨ x = PNone) m → r = false)); [done |].
    intros i x m r Hi IH Hall. apply map_Forall_insert in Hall as [Hx Hall]; [| done].
    rewrite (IH Hall). by destruct Hx as [[s ->] | ->]. }
  assert (map_fold (λ _ x n, Nat.max (depth x) n) 0%nat d = 0%nat) as ->.
  { revert Hflat.
    apply (map_fold_weak_ind
      (λ r (m : pydict),
         map_Forall (λ _ x, (∃ s, x = PStr s) ∨ x = PNone) m → r = 0%nat)); [done |].
    intros i x m r Hi IH Hall. apply map_Forall_insert in Hall as [Hx Hall]; [| done].
    rewrite (IH Hall). by destruct Hx as [[s ->] | ->]. }
  done.
Qed.

(** A power of ten with at least as many zeros as the limit has digits is
    too long. *)
Lemma too_many_digits_pow (k : Z) :
  (0 < max_str_digits)%Z → (max_str_digits ≤ k)%Z →
  too_many_digits max_str_digits (10 ^ k) = true.
Proof.
  intros Hpos Hle. unfold too_many_digits.
  apply andb_true_intro. split; [by apply Z.ltb_lt |].
  apply Z.leb_le. rewrite Z.abs_eq by (apply Z.pow_nonneg; lia).
  apply Z.pow_le_mono_r; lia.
Qed.

(** A dict with an entry that holds too long an integer cannot be
    formatted. *)
Lemma str_raises_long_entry (d : pydict) (k : string) (x : pyval) :
  d !! k = Some x → has_long_int max_str_digits x = true →
  str_raises (PDict d)
  = Some (mk_exc (str_error (PDict d)).1 (str_error (PDict d)).2 true).
Proof.
  intros Hk Hlong. unfold str_raises. cbn [has_long_int].
  assert (map_fold (λ _ y found, has_long_int max_str_digits y || found) false d = true)
    as ->; [| done].
  revert Hk.
  apply (map_fold_weak_ind (λ r (m : pydict), m !! k = Some x → r = true)); [done |].
  intros i y m r Hi IH Hlook. destruct (decide (i = k)) as [-> | Hne].
  - rewrite lookup_insert_eq in Hlook. injection Hlook as ->. by rewrite Hlong.
  - rewrite lookup_insert_ne in Hlook by done. rewrite (IH Hlook). apply orb_true_r.
Qed.

Lemma str_raises_None : str_raises PNone = None.
Proof. reflexivity. Qed.

Lemma str_raises_empty_dict : str_raises (PDict ∅) = None.
Proof. apply str_raises_flat, map_Forall_empty. Qed.

Lemma str_raises_singleton_str (k s : string) :
  str_raises (PDict {[ k := PStr s ]}) = None.
Proof. apply str_raises_flat, map_Forall_singleton. eauto. Qed.

Lemma str_raises_output_None : str_raises (PDict {[ "output" := PNone ]}) = None.
Proof. apply str_raises_flat, map_Forall_singleton. eauto. Qed.

Lemma log_value_ok (v : pyval) (job : pydict) :
  is_Some (job !! "id") → str_raises v = None → log_value v job = (Ok (), job).
Proof.
  intros Hid Hstr. unfold log_value.
  erewrite bind_ok by (by apply log_job_id_ok). by rewrite Hstr.
Qed.

Lemma log_value_raise (v : pyval) (job : pydict) (e : pyexc) :
  is_Some (job !! "id") → str_raises v = Some e → log_value v job = (Raise e, job).
Proof.
  intros Hid Hstr. unfold log_value.
  erewrite bind_ok by (by apply log_job_id_ok). by rewrite Hstr.
Qed.

Lemma log_value_no_id (v : pyval) (job : pydict) :
  job !! "id" = None → log_value v job = (Raise (KeyError "id"), job).
Proof.
  intros Hid. unfold log_value.
  by erewrite bind_raise by (by apply log_job_id_raise).
Qed.

End FormattingProofs.

(** ** [run_job]: proofs *)


Section RunJobProofs.

Variable max_str_digits : Z.
Variable repr_depth : nat.
Variable str_error : pyval → string * string.
Variable check_return_size : pydict → option pyexc.
Variable json_dumps : pyval → string.
Variable format_exc : pyexc → string.
Variable environ : gmap string string.
Variable runpod_version : string.

Local Abbreviation str_raises := (str_raises max_str_digits repr_depth str_error).
Local Abbreviation log_value := (log_value max_str_digits repr_depth str_error).
Local Abbreviation run_job :=
  (run_job max_str_digits repr_depth str_error
     check_return_size json_dumps format_exc environ runpod_version).
Local Abbreviation error_info := (error_info format_exc environ runpod_version).

Local Abbreviation captured :=
  (captured json_dumps format_exc environ runpod_version).
Local Abbreviation settled :=
  (settled max_str_digits repr_depth str_error
     check_return_size json_dumps format_exc environ runpod_version).

(** Lines 115-118: the handler's output, once it is logged. *)
Lemma logged_output (h : handler) (job job' : pydict) (v : pyval) :
  invoke h job = (Ok v, job') →
  (job_output ← invoke h; log_value job_output;; mret job_output) job
  = match job' !! "id" with
    | None => (Raise (KeyError "id"), job')
    | Some _ =>
        match str_raises v with
        | Some e => (Raise e, job')
        | None => (Ok v, job')
        end
    end.
Proof.
  intros Hinv. erewrite bind_ok by eassumption.
  destruct (job' !! "id") as [i |] eqn:Hid.
  - assert (is_Some (job' !! "id")) as Hsome by (by rewrite Hid).
    destruct (str_raises v) as [e |] eqn:Hstr.
    + by erewrite bind_raise by (by apply log_value_raise).
    + by erewrite bind_ok by (by apply log_value_ok).
  - by erewrite bind_raise by (by apply log_value_no_id).
Qed.

Lemma logged_raise (h : handler) (job job' : pydict) (e : pyexc) :
  invoke h job = (Raise e, job') →
  (job_output ← invoke h; log_value job_output;; mret job_output) job
  = (Raise e, job').
Proof. intros Hinv. by erewrite bind_raise by eassumption. Qed.

Lemma str_raises_captured (e : pyexc) : str_raises (PDict (captured e)) = None.
Proof. apply str_raises_singleton_str. Qed.

Lemma run_job_without_id (h : handler) (job : pydict) :
  job !! "id" = None → run_job h job = (Raise (KeyError "id"), job).
Proof. intros Hid. unfold run_job. by rewrite log_job_id_raise. Qed.

Lemma run_job_returns (h : handler) (job job' : pydict) (v : pyval) :
  is_Some (job !! "id") → invoke h job = (Ok v, job') → is_Some (job' !! "id") →
  str_raises v = None →
  check_return_size (normalize v) = None →
  str_raises (PDict (normalize v)) = None →
  run_job h job = (Ok (normalize v), job').
Proof.
  intros Hid Hinv Hid' Hstr Hsize Hstr'. pose proof Hid' as [i' Hi'].
  unfold run_job, try_statement, try_body.
  rewrite log_job_id_ok by done.
  rewrite (logged_output h job job' v Hinv), Hi', Hstr, Hsize.
  by rewrite log_value_ok.
Qed.

(** An output that cannot be formatted for the log line of line 118 is
    reported as a captured exception. *)
Lemma run_job_unformattable (h : handler) (job job' : pydict) (v : pyval) (e : pyexc) :
  is_Some (job !! "id") → invoke h job = (Ok v, job') → is_Some (job' !! "id") →
  str_raises v = Some e →
  run_job h job = (Ok (captured e), job').
Proof.
  intros Hid Hinv Hid' Hstr. pose proof Hid' as [i' Hi'].
  unfold run_job, try_statement, try_body.
  rewrite log_job_id_ok by done.
  rewrite (logged_output h job job' v Hinv), Hi', Hstr.
  rewrite (str_raises_Exception _ _ _ v e Hstr), log_job_id_ok by done.
  by rewrite log_value_ok by (done || apply str_raises_captured).
Qed.

Lemma run_job_rejected (h : handler) (job job' : pydict) (v : pyval) (e : pyexc) :
  is_Some (job !! "id") → invoke h job = (Ok v, job') → is_Some (job' !! "id") →
  str_raises v = None →
  check_return_size (normalize v) = Some e → exc_is_Exception e = true →
  run_job h job = (Ok (captured e), job').
Proof.
  intros Hid Hinv Hid' Hstr Hsize He. pose proof Hid' as [i' Hi'].
  unfold run_job, try_statement, try_body.
  rewrite log_job_id_ok by done.
  rewrite (logged_output h job job' v Hinv), Hi', Hstr, Hsize, He.
  rewrite log_job_id_ok by done.
  by rewrite log_value_ok by (done || apply str_raises_captured).
Qed.

Lemma run_job_captures (h : handler) (job job' : pydict) (e : pyexc) :
  is_Some (job !! "id") → invoke h job = (Raise e, job') → is_Some (job' !! "id") →
  exc_is_Exception e = true →
  run_job h job = (Ok (captured e), job').
Proof.
  intros Hid Hinv Hid' He.
  unfold run_job, try_statement, try_body.
  rewrite log_job_id_ok by done.
  rewrite (logged_raise h job job' e Hinv), He.
  rewrite log_job_id_ok by done.
  by rewrite log_value_ok by (done || apply str_raises_captured).
Qed.

(** An exception that is not an [Exception] passes through the
    [except] clause. *)
Lemma run_job_passes (h : handler) (job job' : pydict) (e : pyexc) :
  is_Some (job !! "id") → invoke h job = (Raise e, job') → is_Some (job' !! "id") →
  exc_is_Exception e = false →
  run_job h job = (Raise e, job').
Proof.
  intros Hid Hinv Hid' He.
  unfold run_job, try_statement, try_body.
  rewrite log_job_id_ok by done.
  rewrite (logged_raise h job job' e Hinv), He.
  by rewrite log_value_ok by (done || apply str_raises_singleton_str).
Qed.

(** The [except] clause reads [job["id"]] again: a handler that removes
    the key and raises makes [run_job] raise. *)
Lemma run_job_id_removed (h : handler) (job job' : pydict) (e : pyexc) :
  is_Some (job !! "id") → invoke h job = (Raise e, job') → job' !! "id" = None →
  run_job h job = (Raise (KeyError "id"), job').
Proof.
  intros Hid Hinv Hid'.
  unfold run_job, try_statement, try_body.
  rewrite log_job_id_ok by done.
  rewrite (logged_raise h job job' e Hinv).
  destruct (exc_is_Exception e).
  - rewrite log_job_id_raise by done. by rewrite log_value_no_id.
  - by rewrite log_value_no_id.
Qed.


(** C2 (amended).  For every job, [run_job] where the handler returns
    [None] yields the JobResult [{"output": None}]: the output key is
    present with the value [None], the error key is absent. *)
Theorem run_job_handler_returns_None (h : handler) (job job' : pydict) :
  is_Some (job !! "id") → invoke h job = (Ok PNone, job') → is_Some (job' !! "id") →
  check_return_size {[ "output" := PNone ]} = None →
  ∃ r, run_job h job = (Ok r, job')
       ∧ r = {[ "output" := PNone ]}
       ∧ r !! "output" = Some PNone
       ∧ r !! "error" = None.
Proof.
  intros Hid Hinv Hid' Hsize. exists {[ "output" := PNone ]}.
  split; [| done].
  rewrite <- normalize_None.
  apply run_job_returns;
    first [apply str_raises_output_None | apply str_raises_None | assumption].
Qed.

(** C3 (amended).  For every handler whose resolved return value is a
    key-value structure with a truthy error entry, when that structure and
    the resulting envelope can be formatted for the log, [run_job] removes
    the error and refresh_worker entries, makes the remaining keys the
    output (no output key when none remains) and sets the error field of
    the JobResult to the value of the error entry; a handler returning
    [{"error": "x"}] yields exactly [{"error": "x"}]. *)
Theorem run_job_error_entry (h : handler) (job job' d : pydict) (err : pyval) :
  is_Some (job !! "id") → invoke h job = (Ok (PDict d), job') →
  is_Some (job' !! "id") →
  d !! "error" = Some err → truthy err = true →
  str_raises (PDict d) = None →
  check_return_size (normalize (PDict d)) = None →
  str_raises (PDict (normalize (PDict d))) = None →
  ∃ r, (run_job h job).1 = Ok r
       ∧ r !! "error" = Some err
       ∧ r !! "output" =
           (if bool_decide (remaining d = ∅) then None else Some (PDict (remaining d)))
       ∧ remaining d !! "error" = None
       ∧ remaining d !! "refresh_worker" = None
       ∧ (∀ k, k ≠ "error" → k ≠ "refresh_worker" → remaining d !! k = d !! k)
       ∧ (d = {[ "error" := err ]} → r = {[ "error" := err ]}).
Proof.
  intros Hid Hinv Hid' Herr Htruthy Hstr Hsize Hlast. exists (normalize (PDict d)).
  split; [by erewrite run_job_returns |].
  assert (normalize (PDict d) !! "error" = Some err) as Hfield.
  { rewrite normalize_dict_error. unfold dict_get. rewrite Herr. cbn.
    by rewrite Htruthy. }
  split; [done |]. split; [apply normalize_dict_output |].
  clear Hinv Hstr Hsize Hlast. unfold remaining. repeat split.
  - by simplify_map_eq.
  - by simplify_map_eq.
  - intros k ??. by simplify_map_eq.
  - intros ->. apply map_eq. intros k.
    destruct (decide (k = "error")) as [-> |]; [by simplify_map_eq |].
    destruct (decide (k = "output")) as [-> |].
    { rewrite normalize_dict_output. unfold remaining.
      rewrite delete_singleton_eq, delete_empty. by simplify_map_eq. }
    destruct (decide (k = "stopPod")) as [-> |].
    { rewrite normalize_dict_stopPod. unfold dict_get. by simplify_map_eq. }
    rewrite normalize_dict_keys by done. by simplify_map_eq.
Qed.


(** C8.  [run_job] where the handler returns the empty key-value structure
    [{}] yields a JobResult in which both the output key and the error key
    are absent. *)
Theorem run_job_empty_dict (h : handler) (job job' : pydict) :
  is_Some (job !! "id") → invoke h job = (Ok (PDict ∅), job') →
  is_Some (job' !! "id") → check_return_size ∅ = None →
  ∃ r, run_job h job = (Ok r, job')
       ∧ r !! "output" = None
       ∧ r !! "error" = None.
Proof.
  intros Hid Hinv Hid' Hsize. exists ∅. split; [| done].
  rewrite <- normalize_empty_dict at 1.
  apply run_job_returns;
    first [apply str_raises_empty_dict
           | rewrite normalize_empty_dict;
             first [apply str_raises_empty_dict | assumption]
           | assumption].
Qed.

(** C9 (amended).  For every handler whose resolved return value is a
    key-value structure with a truthy refresh_worker entry, when that
    structure and the resulting envelope can be formatted for the log,
    [run_job] sets stopPod to true in the returned JobResult and leaves
    refresh_worker out of the output; a handler returning
    [{"foo": 1, "refresh_worker": true}] yields exactly
    [{"output": {"foo": 1}, "stopPod": true}]. *)
Theorem run_job_refresh_worker (h : handler) (job job' d : pydict) (flag : pyval) :
  is_Some (job !! "id") → invoke h job = (Ok (PDict d), job') →
  is_Some (job' !! "id") →
  d !! "refresh_worker" = Some flag → truthy flag = true →
  str_raises (PDict d) = None →
  check_return_size (normalize (PDict d)) = None →
  str_raises (PDict (normalize (PDict d))) = None →
  ∃ r, (run_job h job).1 = Ok r
       ∧ r !! "stopPod" = Some (PBool true)
       ∧ (∀ out, r !! "output" = Some out →
                 out = PDict (remaining d) ∧ remaining d !! "refresh_worker" = None)
       ∧ (d = {[ "foo" := PInt 1; "refresh_worker" := PBool true ]} →
          r = {[ "output" := PDict {[ "foo" := PInt 1 ]}; "stopPod" := PBool true ]}).
Proof.
  intros Hid Hinv Hid' Hflag Htruthy Hstr Hsize Hlast. exists (normalize (PDict d)).
  split; [by erewrite run_job_returns |]. split; [| split].
  - rewrite normalize_dict_stopPod. unfold dict_get. rewrite Hflag. cbn.
    by rewrite Htruthy.
  - intros out. rewrite normalize_dict_output. case_bool_decide; [done |].
    intros [= <-]. split; [done |]. unfold remaining. by simplify_map_eq.
  - clear. intros ->. vm_compute. reflexivity.
Qed.

(** C10.  [run_job] reads [job["id"]] for logging before it enters its
    [try] block: for every job that lacks an "id" key and every handler it
    raises [KeyError] instead of returning a JobResult, so it returns only
    for jobs that contain an "id" key. *)
Theorem run_job_requires_id (h : handler) (job : pydict) :
  job !! "id" = None →
  run_job h job = (Raise (KeyError "id"), job)
  ∧ ∀ r job', run_job h job ≠ (Ok r, job').
Proof.
  intros Hid. pose proof (run_job_without_id h job Hid) as Hraise.
  split; [done |]. intros r job'. by rewrite Hraise.
Qed.

End RunJobProofs.

(** ** [run_job_generator]: proofs *)

Lemma finally_at_exit_yield {A} (body : M (option A)) (final : M unit)
    (job job' : pydict) (y : A) :
  body job = (Ok (Some y), job') →
  finally_at_exit body final job = (Ok (Some y), job').
Proof. intros H. unfold finally_at_exit. by rewrite H. Qed.

Lemma finally_at_exit_end {A} (body : M (option A)) (final : M unit)
    (job job' job'' : pydict) :
  body job = (Ok None, job') → final job' = (Ok (), job'') →
  finally_at_exit body final job = (Ok None, job'').
Proof. intros H Hf. unfold finally_at_exit. by rewrite H, Hf. Qed.

Section RunJobGeneratorProofs.

Variable format_exc : pyexc → string.

Lemma resume_start (h : gen_handler) (job job1 : pydict) (it : iterator) :
  producer h job = (Ok it, job1) →
  run_job_generator format_exc h GStart job = run_job_generator format_exc h (GLoop it) job1.
Proof.
  intros Hprod. cbn [run_job_generator].
  unfold finally_at_exit, try_except.
  by erewrite bind_ok by eassumption.
Qed.

Lemma resume_loop_yield (h : gen_handler) (job job' : pydict) (it it' : iterator)
    (v : pyval) :
  next it job = (Ok (Some (v, it')), job') →
  run_job_generator format_exc h (GLoop it) job
  = (Ok (Some ({[ "output" := v ]}, GLoop it')), job').
Proof.
  intros Hnext. cbn [run_job_generator].
  apply finally_at_exit_yield, try_except_ok.
  unfold loop_turn. by erewrite bind_ok by eassumption.
Qed.





End RunJobGeneratorProofs.

(** ** [get_job]: proofs *)

Lemma is_None_true (v : pyval) : is_None v = true ↔ v = PNone.
Proof. destruct v; cbn; split; congruence. Qed.

Lemma is_None_false (v : pyval) : is_None v = false ↔ v ≠ PNone.
Proof. destruct v; cbn; split; congruence. Qed.

(** How the [try] block leaves [next_job]: a valid job or [None] when it
    ends normally, and [None] or a value that is not a dict when it
    raises. *)
Lemma try_block_next_job (p : poll) (retry : bool) :
  match try_block p retry with
  | (next_job, Ok FallThrough) => next_job = PNone ∨ valid_job next_job
  | (next_job, Ok _) => next_job = PNone
  | (next_job, Raise _) =>
      next_job = PNone ∨ ∃ e, py_getitem next_job "id" = Raise e
  end.
Proof.
  destruct p as [e | status [body | e]]; cbn; [by left | | ].
  - destruct (Z.eqb status 204); [by destruct retry |].
    destruct (Z.eqb status 400); [by destruct retry |].
    destruct (Z.eqb status 200); [| by destruct retry]. cbn.
    destruct body as [| b | n | s | l | d]; cbn; eauto.
    destruct (is_None (dict_get d "id")) eqn:Hid; cbn; [by left |].
    destruct (is_None (dict_get d "input")) eqn:Hinput; cbn; [by left |].
    right. exists d. by rewrite <- !is_None_false.
  - destruct (Z.eqb status 204); [by destruct retry |].
    destruct (Z.eqb status 400); [by destruct retry |].
    destruct (Z.eqb status 200); [| by destruct retry]. by left.
Qed.

Section GetJobProofs.

Variable Jobs : Type.
Variable get_job_list : Jobs → pyval.
Variable add_job : pyval → Jobs → Jobs.
Variable JOB_GET_URL : string.

Local Abbreviation get_job := (get_job Jobs get_job_list add_job JOB_GET_URL).
Local Abbreviation _job_get_url := (_job_get_url Jobs get_job_list JOB_GET_URL).

Lemma confirm_valid (next_job : pyval) (jobs : Jobs) :
  valid_job next_job →
  confirm Jobs add_job next_job jobs
  = (Ok next_job, add_job (default PNone (match next_job with PDict d => d !! "id" | _ => None end)) jobs).
Proof.
  intros (d & -> & Hid & Hinput). unfold confirm, py_getitem, dict_get in *.
  destruct (d !! "id") as [job_id |] eqn:Hlook; [| done]. cbn.
  case_bool_decide as Hempty; [| done]. by rewrite Hempty in Hlook.
Qed.

Lemma after_try_returned (next_job : pyval) (retry : bool) (jobs : Jobs)
    (rest : list poll) (again : polled Jobs) (v : pyval) :
  next_job = PNone ∨ valid_job next_job ∨ (∃ e, py_getitem next_job "id" = Raise e) →
  returned (after_try Jobs add_job next_job retry jobs rest again) = Some (Ok v) →
  v = PNone ∨ valid_job v ∨ returned again = Some (Ok v).
Proof.
  unfold after_try. intros Hnext.
  destruct (is_None next_job) eqn:Hnone.
  { destruct retry; cbn; [by auto |]. intros [= <-]. by left. }
  apply is_None_false in Hnone.
  destruct Hnext as [-> | [Hvalid | [e He]]]; [done | |].
  - rewrite (confirm_valid _ _ Hvalid). cbn. intros [= <-]. auto.
  - unfold confirm. by rewrite He.
Qed.

Lemma turn_returned (p : poll) (retry : bool) (jobs : Jobs)
    (rest : list poll) (again : polled Jobs) (v : pyval) :
  returned (turn Jobs add_job p retry jobs rest again) = Some (Ok v) →
  v = PNone ∨ valid_job v ∨ returned again = Some (Ok v).
Proof.
  unfold turn. pose proof (try_block_next_job p retry) as Hnext.
  destruct (try_block p retry) as [next_job [[] | err]].
  - apply after_try_returned. tauto.
  - auto.
  - cbn. intros [= <-]. by left.
  - destruct (exc_is_Exception err); [| done].
    apply after_try_returned. tauto.
Qed.

(** Whatever [get_job] returns is [None] or a valid job. *)
Lemma get_job_returns_valid (session : list poll) (retry : bool) (jobs : Jobs)
    (v : pyval) :
  returned (get_job session retry jobs) = Some (Ok v) →
  v = PNone ∨ valid_job v.
Proof.
  induction session as [| p session IH]; cbn; [done |].
  intros H. apply turn_returned in H as [? | [? | ?]]; auto.
Qed.

(** X29.  A poll response whose parsed body is a record that lacks "id" or
    "input", or has one of them set to [None], is never returned as a job:
    [get_job] discards it, returns [None] at once when [retry] is false
    and polls again when [retry] is true, without tracking anything. *)
Theorem get_job_discards_malformed (d : pydict) (session : list poll)
    (retry : bool) (jobs : Jobs) :
  d !! "id" = None ∨ d !! "id" = Some PNone
  ∨ d !! "input" = None ∨ d !! "input" = Some PNone →
  returned (get_job (Response 200 (Ok (PDict d)) :: session) retry jobs)
    ≠ Some (Ok (PDict d))
  ∧ get_job (Response 200 (Ok (PDict d)) :: session) true jobs
    = sent (_job_get_url jobs) (get_job session true jobs)
  ∧ get_job (Response 200 (Ok (PDict d)) :: session) false jobs
    = mk_polled (Some (Ok PNone)) [_job_get_url jobs] jobs session.
Proof.
  intros Hbad.
  assert (is_None (dict_get d "id") || is_None (dict_get d "input") = true) as Hnone.
  { unfold dict_get.
    destruct Hbad as [-> | [-> | [-> | ->]]]; cbn; by rewrite ?orb_true_r. }
  assert (∀ retry, try_block (Response 200 (Ok (PDict d))) retry
                   = (PNone, Ok FallThrough)) as Htry.
  { intros r. cbn. by rewrite Hnone. }
  split; [| split].
  - intros Hret. apply get_job_returns_valid in Hret as [? | (d' & [= <-] & Hid & Hinput)];
      [done |].
    apply orb_true_iff in Hnone as [H | H]; apply is_None_true in H; congruence.
  - get_job_turn. by rewrite Htry.
  - get_job_turn. by rewrite Htry.
Qed.

(** C7.  With [retry] false, [get_job] returns [None] on a 204 response:
    it has sent one request, reads no further response and tracks
    nothing. *)
Theorem get_job_no_retry_204 (json : outcome pyval) (session : list poll)
    (jobs : Jobs) :
  get_job (Response 204 json :: session) false jobs
  = mk_polled (Some (Ok PNone)) [_job_get_url jobs] jobs session.
Proof. reflexivity. Qed.

(** A 200 response whose body is neither a dict nor [None] leaves
    [next_job] set when [.get] fails: the loop ends and line 97 raises. *)
Lemma get_job_body_not_a_record (body : pyval) (session : list poll)
    (retry : bool) (jobs : Jobs) :
  body ≠ PNone → (∀ d, body ≠ PDict d) →
  ∃ e, get_job (Response 200 (Ok body) :: session) retry jobs
       = mk_polled (Some (Raise e)) [_job_get_url jobs] jobs session.
Proof.
  intros Hnone Hdict. get_job_turn.
  destruct body as [| b | n | s | l | d]; try done; eauto.
  by destruct (Hdict d).
Qed.

End GetJobProofs.

(** *** Instances on the sample job *)



(** C2, counterexample: when the handler returns [None] the output key is
    present. *)
Lemma run_job_None_keeps_output :
  ¬ ∃ r job', sample_run_job (returning PNone) sample_job = (Ok r, job')
              ∧ r !! "output" = None ∧ r !! "error" = None.
Proof.
  intros (r & job' & H & Hout & _).
  assert (sample_run_job (returning PNone) sample_job
          = (Ok {[ "output" := PNone ]}, sample_job)) as Hrun
    by (vm_compute; reflexivity).
  rewrite Hrun in H. injection H as <- _.
  vm_compute in Hout. discriminate Hout.
Qed.

(** On the sample job, a handler returning [None] gives [{"output": None}]. *)
Lemma run_job_handler_returns_None_witness :
  ∃ r, sample_run_job (returning PNone) sample_job = (Ok r, sample_job)
       ∧ r = {[ "output" := PNone ]}
       ∧ r !! "output" = Some PNone
       ∧ r !! "error" = None.
Proof.
  apply run_job_handler_returns_None.
  - has_id.
  - vm_compute; reflexivity.
  - has_id.
  - reflexivity.
Defined.

(** C3, counterexample: a handler that returns [{"error": "", "foo": 1}]
    has an error entry, and the JobResult has no error field. *)
Lemma run_job_falsy_error_dropped :
  ¬ ∃ r job',
      sample_run_job
        (returning (PDict {[ "error" := PStr ""; "foo" := PInt 1 ]})) sample_job
      = (Ok r, job')
      ∧ r !! "error" = Some (PStr "").
Proof.
  intros (r & job' & H & Herr).
  assert (sample_run_job
            (returning (PDict {[ "error" := PStr ""; "foo" := PInt 1 ]})) sample_job
          = (Ok {[ "output" := PDict {[ "foo" := PInt 1 ]} ]}, sample_job)) as Hrun
    by (vm_compute; reflexivity).
  rewrite Hrun in H. injection H as <- _.
  vm_compute in Herr. discriminate Herr.
Qed.

(** A handler returning [{"error": "x"}] gives exactly [{"error": "x"}]. *)
Lemma run_job_error_entry_witness :
  ∃ r, (sample_run_job (returning (PDict {[ "error" := PStr "x" ]})) sample_job).1
       = Ok r
       ∧ r = {[ "error" := PStr "x" ]}.
Proof.
  destruct (run_job_error_entry 0 50 sample_str_error
              accept_all sample_dumps sample_format_exc
              sample_environ "1.2.3"
              (returning (PDict {[ "error" := PStr "x" ]})) sample_job sample_job
              {[ "error" := PStr "x" ]} (PStr "x"))
    as (r & Hrun & _ & _ & _ & _ & _ & Hexact).
  - has_id.
  - vm_compute; reflexivity.
  - has_id.
  - vm_compute; reflexivity.
  - reflexivity.
  - vm_compute; reflexivity.
  - reflexivity.
  - vm_compute; reflexivity.
  - exists r. split; [exact Hrun | by apply Hexact].
Defined.



(** An [async def] handler returning [{}] gives the empty envelope. *)
Lemma run_job_empty_dict_witness :
  ∃ r, sample_run_job (async_returning (PDict ∅)) sample_job = (Ok r, sample_job)
       ∧ r !! "output" = None
       ∧ r !! "error" = None.
Proof.
  apply run_job_empty_dict.
  - has_id.
  - vm_compute; reflexivity.
  - has_id.
  - reflexivity.
Defined.

(** C9, counterexample: the output [{"refresh_worker": True, "n": 10**5000}]
    has a truthy refresh_worker entry; with the default limit of 4300
    digits, formatting it for the log line of line 118 raises, the
    exception is captured, and the JobResult has no stopPod. *)
Lemma run_job_unformattable_output_no_stopPod :
  ¬ ∃ r job', default_run_job (returning unformattable_output) sample_job = (Ok r, job')
              ∧ r !! "stopPod" = Some (PBool true).
Proof.
  intros (r & job' & H & Hstop).
  assert (str_raises 4300 50 sample_str_error unformattable_output
          = Some (mk_exc (sample_str_error unformattable_output).1
                         (sample_str_error unformattable_output).2 true)) as Hstr.
  { apply (str_raises_long_entry 4300 50 sample_str_error _ "n" (PInt (10 ^ 5000))).
    - rewrite lookup_insert_ne by discriminate. apply lookup_singleton_eq.
    - apply too_many_digits_pow; lia. }
  unfold default_run_job in H.
  assert (is_Some (sample_job !! "id")) as Hid by has_id.
  assert (invoke (returning unformattable_output) sample_job
          = (Ok unformattable_output, sample_job)) as Hinv by reflexivity.
  rewrite (run_job_unformattable 4300 50 sample_str_error accept_all sample_dumps
             sample_format_exc sample_environ "1.2.3" _ _ _ _ _ Hid Hinv Hid Hstr) in H.
  clear Hstr Hinv Hid.
  injection H as <- _.
  unfold captured in Hstop.
  rewrite lookup_singleton_ne in Hstop by discriminate.
  discriminate Hstop.
Qed.

(** A handler returning [{"foo": 1, "refresh_worker": True}] gives exactly
    [{"output": {"foo": 1}, "stopPod": True}]. *)
Lemma run_job_refresh_worker_witness :
  ∃ r, (sample_run_job
          (returning (PDict {[ "foo" := PInt 1; "refresh_worker" := PBool true ]}))
          sample_job).1
       = Ok r
       ∧ r = {[ "output" := PDict {[ "foo" := PInt 1 ]}; "stopPod" := PBool true ]}.
Proof.
  destruct (run_job_refresh_worker 0 50 sample_str_error
              accept_all sample_dumps sample_format_exc
              sample_environ "1.2.3"
              (returning (PDict {[ "foo" := PInt 1; "refresh_worker" := PBool true ]}))
              sample_job sample_job
              {[ "foo" := PInt 1; "refresh_worker" := PBool true ]} (PBool true))
    as (r & Hrun & _ & _ & Hexact).
  - has_id.
  - vm_compute; reflexivity.
  - has_id.
  - vm_compute; reflexivity.
  - reflexivity.
  - vm_compute; reflexivity.
  - reflexivity.
  - vm_compute; reflexivity.
  - exists r. split; [exact Hrun | by apply Hexact].
Defined.

(** On a job without "id", [run_job] raises [KeyError('id')]. *)
Lemma run_job_requires_id_witness :
  sample_run_job (returning (PInt 1)) job_without_id
  = (Raise (KeyError "id"), job_without_id)
  ∧ ∀ r job', sample_run_job (returning (PInt 1)) job_without_id ≠ (Ok r, job').
Proof.
  apply run_job_requires_id. vm_compute; reflexivity.
Defined.



(** C6, the failing input: a 200 response whose body is the JSON array
    [[]] has neither "id" nor "input"; [get_job] called with [retry] true
    does not discard it and poll again: it raises [TypeError] at line 97
    and leaves the valid job that follows unread. *)
Example get_job_list_body_raises :
  sample_get_job
    [Response 200 (Ok (PList [])); Response 200 (Ok (PDict sample_job))] true []
  = mk_polled
      (Some (Raise (TypeError "list indices must be integers or slices, not str")))
      ["https://api.example/v2/job-take?gpu=A&job_in_progress=0"] []
      [Response 200 (Ok (PDict sample_job))].
Proof. vm_compute. reflexivity. Qed.

(** A response without "id" is discarded. *)
Lemma get_job_discards_malformed_witness :
  returned (sample_get_job [Response 200 (Ok (PDict job_without_id))] true [])
    ≠ Some (Ok (PDict job_without_id))
  ∧ sample_get_job [Response 200 (Ok (PDict job_without_id))] true []
    = sent (_job_get_url (list pyval) list_get_job_list
              "https://api.example/v2/job-take?gpu=A" [])
        (sample_get_job [] true [])
  ∧ sample_get_job [Response 200 (Ok (PDict job_without_id))] false []
    = mk_polled (Some (Ok PNone))
        [_job_get_url (list pyval) list_get_job_list
           "https://api.example/v2/job-take?gpu=A" []] [] [].
Proof.
  apply get_job_discards_malformed. left. vm_compute. reflexivity.
Defined.

(** A result that the size policy rejects is reported as a captured
    exception. *)
Example size_violation_captured :
  run_job 0 50 sample_str_error
    reject_all sample_dumps sample_format_exc sample_environ "1.2.3"
    (returning (PInt 1)) sample_job
  = (Ok (captured sample_dumps sample_format_exc sample_environ "1.2.3"
           (ValueError "too large")),
     sample_job).
Proof. vm_compute. reflexivity. Qed.

(** [get_job] skips a 204 and a malformed job, returns the valid job that
    follows and tracks its id; the busy flag of every request is "0". *)
Example get_job_skips_to_valid_job :
  sample_get_job
    [Response 204 (Ok PNone); Response 200 (Ok (PDict job_without_id));
     Response 200 (Ok (PDict sample_job)); Response 204 (Ok PNone)] true []
  = mk_polled (Some (Ok (PDict sample_job)))
      (replicate 3 "https://api.example/v2/job-take?gpu=A&job_in_progress=0")
      [PStr "job-1"] [Response 204 (Ok PNone)].
Proof. vm_compute. reflexivity. Qed.

(** ** [run_job]: further properties *)

(** A value that is not a dict is wrapped as it is. *)
Lemma normalize_not_dict (v : pyval) :
  (∀ d, v ≠ PDict d) → normalize v = {[ "output" := v ]}.
Proof. intros Hv. destruct v; try done. by destruct (Hv d). Qed.

Lemma normalize_keys (v : pyval) (k : string) :
  k ≠ "output" → k ≠ "error" → k ≠ "stopPod" → normalize v !! k = None.
Proof.
  intros Ho He Hs. destruct v; try (by apply normalize_dict_keys);
    rewrite normalize_not_dict by done; by rewrite lookup_singleton_ne.
Qed.

Lemma normalize_stopPod (v : pyval) :
  normalize v !! "stopPod" = None ∨ normalize v !! "stopPod" = Some (PBool true).
Proof.
  destruct v;
    try (left; rewrite normalize_not_dict by done; by rewrite lookup_singleton_ne).
  rewrite normalize_dict_stopPod. destruct (truthy _); auto.
Qed.

Lemma normalize_output_dict (v : pyval) (out : pydict) :
  normalize v !! "output" = Some (PDict out) →
  ∃ d, v = PDict d ∧ out = remaining d ∧ out ≠ ∅.
Proof.
  destruct v;
    try (rewrite normalize_not_dict by done; rewrite lookup_singleton_eq; done).
  rewrite normalize_dict_output.
  case_bool_decide; [done |]. intros [= <-]. by exists d.
Qed.

Section RunJobMore.

Variable max_str_digits : Z.
Variable repr_depth : nat.
Variable str_error : pyval → string * string.
Variable check_return_size : pydict → option pyexc.
Variable json_dumps : pyval → string.
Variable format_exc : pyexc → string.
Variable environ : gmap string string.
Variable runpod_version : string.

Local Abbreviation str_raises := (str_raises max_str_digits repr_depth str_error).
Local Abbreviation log_value := (log_value max_str_digits repr_depth str_error).
Local Abbreviation run_job :=
  (run_job max_str_digits repr_depth str_error
     check_return_size json_dumps format_exc environ runpod_version).
Local Abbreviation error_info := (error_info format_exc environ runpod_version).
Local Abbreviation captured :=
  (captured json_dumps format_exc environ runpod_version).
Local Abbreviation settled :=
  (settled max_str_digits repr_depth str_error
     check_return_size json_dumps format_exc environ runpod_version).

(** Line 118 reads [job["id"]] inside the [try]: when the handler has
    removed the key and returned, the [KeyError] is caught and the [except]
    clause raises it again. *)
Lemma run_job_id_removed_on_return (h : handler) (job job' : pydict) (v : pyval) :
  is_Some (job !! "id") → invoke h job = (Ok v, job') → job' !! "id" = None →
  run_job h job = (Raise (KeyError "id"), job').
Proof.
  intros Hid Hinv Hid'. unfold run_job, try_statement, try_body.
  rewrite log_job_id_ok by done.
  rewrite (logged_output _ _ _ h job job' v Hinv), Hid'. cbn [exc_is_Exception KeyError].
  rewrite log_job_id_raise by done. by rewrite log_value_no_id.
Qed.

(** The [finally] clause formats [run_result] while the exception of the
    size check is on its way. *)
Lemma run_job_size_check_passes (h : handler) (job job' : pydict) (v : pyval)
    (e : pyexc) :
  is_Some (job !! "id") → invoke h job = (Ok v, job') → is_Some (job' !! "id") →
  str_raises v = None →
  check_return_size (normalize v) = Some e → exc_is_Exception e = false →
  run_job h job
  = (Raise (default e (str_raises (PDict (normalize v)))), job').
Proof.
  intros Hid Hinv Hid' Hstr Hsize He. pose proof Hid' as [i' Hi'].
  unfold run_job, try_statement, try_body.
  rewrite log_job_id_ok by done.
  rewrite (logged_output _ _ _ h job job' v Hinv), Hi', Hstr, Hsize, He.
  destruct (str_raises (PDict (normalize v))) as [e' |] eqn:Hlast.
  - by rewrite (log_value_raise _ _ _ _ _ e').
  - by rewrite log_value_ok.
Qed.

(** An envelope that cannot be formatted for the last log line (line 157)
    is not returned: the [finally] clause raises. *)
Lemma run_job_envelope_unformattable (h : handler) (job job' : pydict) (v : pyval)
    (e : pyexc) :
  is_Some (job !! "id") → invoke h job = (Ok v, job') → is_Some (job' !! "id") →
  str_raises v = None →
  check_return_size (normalize v) = None →
  str_raises (PDict (normalize v)) = Some e →
  run_job h job = (Raise e, job').
Proof.
  intros Hid Hinv Hid' Hstr Hsize Hlast. pose proof Hid' as [i' Hi'].
  unfold run_job, try_statement, try_body.
  rewrite log_job_id_ok by done.
  rewrite (logged_output _ _ _ h job job' v Hinv), Hi', Hstr, Hsize.
  by rewrite (log_value_raise _ _ _ _ _ e).
Qed.

(** When [run_job] returns, the job had its id before and after the
    handler ran, and the result is the envelope of what the handler
    resolved to. *)
Lemma run_job_Ok_inv (h : handler) (job job' : pydict) (r : pydict) :
  run_job h job = (Ok r, job') →
  is_Some (job !! "id") ∧ job' = (invoke h job).2 ∧ is_Some (job' !! "id")
  ∧ r = settled (invoke h job).1.
Proof.
  destruct (job !! "id") as [i |] eqn:Hid;
    [| by rewrite run_job_without_id].
  assert (is_Some (job !! "id")) as Hsome by (by rewrite Hid).
  destruct (invoke h job) as [[v | e] job1] eqn:Hinv;
    (destruct (job1 !! "id") as [i' |] eqn:Hid';
     [assert (is_Some (job1 !! "id")) as Hsome' by (by rewrite Hid') |]).
  - cbn [fst snd settled].
    destruct (str_raises v) as [e |] eqn:Hstr.
    { rewrite (run_job_unformattable _ _ _ _ _ _ _ _ h job job1 v e) by done.
      by intros [= <- <-]. }
    destruct (check_return_size (normalize v)) as [e |] eqn:Hsize.
    + destruct (exc_is_Exception e) eqn:He.
      * rewrite (run_job_rejected _ _ _ _ _ _ _ _ h job job1 v e) by done.
        by intros [= <- <-].
      * by rewrite (run_job_size_check_passes h job job1 v e).
    + destruct (str_raises (PDict (normalize v))) as [e |] eqn:Hlast.
      * by rewrite (run_job_envelope_unformattable h job job1 v e).
      * rewrite (run_job_returns _ _ _ _ _ _ _ _ h job job1 v) by done.
        by intros [= <- <-].
  - by rewrite (run_job_id_removed_on_return h job job1 v).
  - destruct (exc_is_Exception e) eqn:He.
    + rewrite (run_job_captures _ _ _ _ _ _ _ _ h job job1 e) by done.
      by intros [= <- <-].
    + by rewrite (run_job_passes _ _ _ _ _ _ _ _ h job job1 e).
  - by rewrite (run_job_id_removed _ _ _ _ _ _ _ _ h job job1 e).
Qed.

(** [run_job] depends on the handler only through what it resolves to. *)
Lemma run_job_invoke_ext (h h' : handler) (job : pydict) :
  invoke h job = invoke h' job → run_job h job = run_job h' job.
Proof.
  intros Hinv. destruct (job !! "id") as [i |] eqn:Hid;
    [| by rewrite !run_job_without_id].
  assert (is_Some (job !! "id")) as Hsome by (by rewrite Hid).
  unfold run_job, try_statement, try_body.
  rewrite log_job_id_ok by done. unfold mbind at 1 3. unfold M_bind.
  by rewrite Hinv.
Qed.

(** X10.  A handler output that is not a dict is wrapped as it is when it
    can be formatted for the log, falsy values included: [None], [False],
    [0], the empty string and the empty list all give
    [{"output": value}]. *)
Theorem run_job_wraps_non_dict (h : handler) (job job' : pydict) (v : pyval) :
  is_Some (job !! "id") → invoke h job = (Ok v, job') → is_Some (job' !! "id") →
  (∀ d, v ≠ PDict d) →
  str_raises v = None →
  check_return_size {[ "output" := v ]} = None →
  str_raises (PDict {[ "output" := v ]}) = None →
  run_job h job = (Ok {[ "output" := v ]}, job').
Proof.
  intros Hid Hinv Hid' Hv Hstr Hsize Hlast.
  rewrite <- (normalize_not_dict v Hv) at 1. apply run_job_returns; try assumption.
  all: by rewrite (normalize_not_dict v Hv).
Qed.

(** X11.  Whatever the handler does, a JobResult that [run_job] returns has
    no key besides "output", "error" and "stopPod", and its "stopPod" is
    [True] or absent, never [False]. *)
Theorem run_job_result_keys (h : handler) (job job' r : pydict) :
  run_job h job = (Ok r, job') →
  dom r ⊆ ({[ "output"; "error"; "stopPod" ]} : gset string)
  ∧ (r !! "stopPod" = None ∨ r !! "stopPod" = Some (PBool true)).
Proof.
  intros Hrun. apply run_job_Ok_inv in Hrun as (_ & _ & _ & ->).
  assert (∀ e, dom (captured e) ⊆ ({[ "output"; "error"; "stopPod" ]} : gset string)
               ∧ (captured e !! "stopPod" = None
                  ∨ captured e !! "stopPod" = Some (PBool true))) as Hcaptured.
  { intros e. unfold captured. rewrite dom_singleton_L.
    split; [set_solver |]. left. by rewrite lookup_singleton_ne. }
  assert (∀ v, dom (normalize v) ⊆ ({[ "output"; "error"; "stopPod" ]} : gset string)
               ∧ (normalize v !! "stopPod" = None
                  ∨ normalize v !! "stopPod" = Some (PBool true))) as Hnormal.
  { intros v. split; [| apply normalize_stopPod].
    intros k Hk. apply elem_of_dom in Hk as [x Hx].
    destruct (decide (k = "output")) as [-> |]; [set_solver |].
    destruct (decide (k = "error")) as [-> |]; [set_solver |].
    destruct (decide (k = "stopPod")) as [-> |]; [set_solver |].
    by rewrite normalize_keys in Hx. }
  destruct (invoke h job).1 as [v | e]; cbn; [| done].
  destruct (str_raises v); [done |].
  by destruct (check_return_size (normalize v)).
Qed.

(** X12.  A dict under the "output" key of a returned JobResult is never
    empty and never contains the keys "error" and "refresh_worker": these
    two entries of the handler's output are consumed, not echoed. *)
Theorem run_job_output_dict (h : handler) (job job' r out : pydict) :
  run_job h job = (Ok r, job') → r !! "output" = Some (PDict out) →
  out ≠ ∅ ∧ out !! "error" = None ∧ out !! "refresh_worker" = None.
Proof.
  intros Hrun. apply run_job_Ok_inv in Hrun as (_ & _ & _ & ->).
  assert (∀ v, normalize v !! "output" = Some (PDict out) →
               out ≠ ∅ ∧ out !! "error" = None ∧ out !! "refresh_worker" = None)
    as Hnormal.
  { intros v Hout. apply normalize_output_dict in Hout as (d & -> & -> & Hne).
    split; [done |]. unfold remaining. by simplify_map_eq. }
  assert (∀ e, captured e !! "output" = Some (PDict out) → False) as Hcaptured.
  { intros e. unfold captured. by rewrite lookup_singleton_ne. }
  destruct (invoke h job).1 as [v | e]; cbn.
  - destruct (str_raises v).
    { intros Hout. by destruct (Hcaptured _ Hout). }
    destruct (check_return_size (normalize v)); [| by apply Hnormal].
    intros Hout. by destruct (Hcaptured _ Hout).
  - intros Hout. by destruct (Hcaptured _ Hout).
Qed.

(** X13.  A handler that removes the "id" key from the job makes [run_job]
    raise [KeyError], whether the handler returned a value or raised:
    [job["id"]] is read again after the handler has run. *)
Theorem run_job_handler_removes_id (h : handler) (job : pydict) :
  is_Some (job !! "id") → (invoke h job).2 !! "id" = None →
  run_job h job = (Raise (KeyError "id"), (invoke h job).2).
Proof.
  intros Hid. destruct (invoke h job) as [[v | e] job'] eqn:Hinv; cbn; intros Hid'.
  - by apply (run_job_id_removed_on_return h job job' v).
  - by apply (run_job_id_removed _ _ _ _ _ _ _ _ h job job' e).
Qed.



(** X16.  Awaiting makes no difference to the result: a handler that
    returns an awaitable gives the same JobResult as the handler that runs
    the same computation before it returns. *)
Theorem run_job_awaitable_agrees (aw : M pyval) (job : pydict) :
  run_job (mret (HAwaitable aw)) job
  = run_job (v ← aw; mret (HValue v)) job.
Proof.
  apply run_job_invoke_ext. unfold invoke, mbind, M_bind, mret, M_ret.
  by destruct (aw job) as [[v | e] job'].
Qed.

End RunJobMore.

(** ** [get_job]: further properties *)

Section GetJobMore.

Variable Jobs : Type.
Variable get_job_list : Jobs → pyval.
Variable add_job : pyval → Jobs → Jobs.
Variable JOB_GET_URL : string.

Local Abbreviation get_job := (get_job Jobs get_job_list add_job JOB_GET_URL).
Local Abbreviation _job_get_url := (_job_get_url Jobs get_job_list JOB_GET_URL).

(** With [retry] false the [try] block is never left by [continue]. *)
Lemma try_block_no_retry (p : poll) :
  (try_block p false).2 ≠ Ok Continue.
Proof.
  destruct p as [e | status [body | e]]; cbn; [done | |];
    repeat case_match; cbn; done.
Qed.

(** X1.  With [retry] false, [get_job] sends exactly one request whatever
    the server answers: it returns or raises after the first response and
    leaves the others unread. *)
Theorem get_job_no_retry_one_request (p : poll) (session : list poll) (jobs : Jobs) :
  ∃ r jobs', get_job (p :: session) false jobs
             = mk_polled (Some r) [_job_get_url jobs] jobs' session.
Proof.
  get_job_turn. pose proof (try_block_no_retry p) as Hflow.
  destruct (try_block p false) as [next_job [[] | err]]; cbn in Hflow;
    try done; unfold after_try; cbn;
    repeat case_match; cbn; eauto.
Qed.

(** X2.  A response whose status is not 200 (204, 400 or any other) gives no
    job: with [retry] true the next poll follows, with [retry] false
    [get_job] returns [None]; the body is not read and nothing is tracked. *)
Theorem get_job_status_not_200 (status : Z) (json : outcome pyval)
    (session : list poll) (jobs : Jobs) :
  status ≠ 200 →
  get_job (Response status json :: session) true jobs
  = sent (_job_get_url jobs) (get_job session true jobs)
  ∧ get_job (Response status json :: session) false jobs
    = mk_polled (Some (Ok PNone)) [_job_get_url jobs] jobs session.
Proof.
  intros Hstatus.
  assert (∀ retry, try_block (Response status json) retry
                   = (PNone, Ok (if negb retry then ReturnNone else Continue))) as Htry.
  { intros retry. cbn.
    destruct (Z.eqb_spec status 204); [done |].
    destruct (Z.eqb_spec status 400); [done |].
    by destruct (Z.eqb_spec status 200). }
  split; get_job_turn; by rewrite Htry.
Qed.

(** X3.  An [Exception] raised by [session.get] or by [response.json()] is
    swallowed: with [retry] true the next poll follows, with [retry] false
    [get_job] returns [None]. *)
Theorem get_job_swallows_exception (p : poll) (e : pyexc)
    (session : list poll) (jobs : Jobs) :
  p = GetRaises e ∨ p = Response 200 (Raise e) →
  exc_is_Exception e = true →
  get_job (p :: session) true jobs
  = sent (_job_get_url jobs) (get_job session true jobs)
  ∧ get_job (p :: session) false jobs
    = mk_polled (Some (Ok PNone)) [_job_get_url jobs] jobs session.
Proof.
  intros Hp He.
  assert (∀ retry, try_block p retry = (PNone, Raise e)) as Htry
    by (by destruct Hp as [-> | ->]).
  split; get_job_turn; by rewrite Htry, He.
Qed.

(** X4.  An exception that is not an [Exception] (a cancellation, a
    keyboard interrupt) leaves [get_job] whatever [retry] is; nothing is
    tracked. *)
Theorem get_job_propagates_non_Exception (p : poll) (e : pyexc)
    (session : list poll) (retry : bool) (jobs : Jobs) :
  p = GetRaises e ∨ p = Response 200 (Raise e) →
  exc_is_Exception e = false →
  get_job (p :: session) retry jobs
  = mk_polled (Some (Raise e)) [_job_get_url jobs] jobs session.
Proof.
  intros Hp He.
  assert (try_block p retry = (PNone, Raise e)) as Htry
    by (by destruct Hp as [-> | ->]).
  get_job_turn. by rewrite Htry, He.
Qed.

(** X5.  A 200 response whose body is a dict with "id" and "input" present
    and not [None] is returned as it is, after one request, and its id is
    added to the tracked jobs. *)
Theorem get_job_accepts_valid_job (d : pydict) (job_id job_input : pyval)
    (session : list poll) (retry : bool) (jobs : Jobs) :
  d !! "id" = Some job_id → job_id ≠ PNone →
  d !! "input" = Some job_input → job_input ≠ PNone →
  get_job (Response 200 (Ok (PDict d)) :: session) retry jobs
  = mk_polled (Some (Ok (PDict d))) [_job_get_url jobs] (add_job job_id jobs) session.
Proof.
  intros Hid Hid' Hinput Hinput'.
  assert (valid_job (PDict d)) as Hvalid.
  { exists d. unfold dict_get. by rewrite Hid, Hinput. }
  assert (try_block (Response 200 (Ok (PDict d))) retry
          = (PDict d, Ok FallThrough)) as Htry.
  { cbn. unfold dict_get. rewrite Hid, Hinput. cbn.
    apply is_None_false in Hid', Hinput'. by rewrite Hid', Hinput'. }
  get_job_turn. rewrite Htry. unfold after_try. cbn [is_None].
  rewrite (confirm_valid Jobs add_job _ jobs Hvalid). by rewrite Hid.
Qed.

(** The four ways a turn of the loop ends: the loop goes on (only with
    [retry] true), [None] is returned (only with [retry] false), a valid
    job is returned and tracked, or an exception leaves the function. *)
Lemma turn_cases (p : poll) (retry : bool) (jobs : Jobs) (rest : list poll)
    (again : polled Jobs) :
  (retry = true ∧ turn Jobs add_job p retry jobs rest again = again)
  ∨ (retry = false
     ∧ turn Jobs add_job p retry jobs rest again
       = mk_polled (Some (Ok PNone)) [] jobs rest)
  ∨ (∃ d job_id,
       valid_job (PDict d) ∧ d !! "id" = Some job_id
       ∧ turn Jobs add_job p retry jobs rest again
         = mk_polled (Some (Ok (PDict d))) [] (add_job job_id jobs) rest)
  ∨ (∃ e, turn Jobs add_job p retry jobs rest again
          = mk_polled (Some (Raise e)) [] jobs rest).
Proof.
  assert (∀ next_job,
    next_job = PNone ∨ valid_job next_job ∨ (∃ e, py_getitem next_job "id" = Raise e) →
    (retry = true ∧ after_try Jobs add_job next_job retry jobs rest again = again)
    ∨ (retry = false
       ∧ after_try Jobs add_job next_job retry jobs rest again
         = mk_polled (Some (Ok PNone)) [] jobs rest)
    ∨ (∃ d job_id,
         valid_job (PDict d) ∧ d !! "id" = Some job_id
         ∧ after_try Jobs add_job next_job retry jobs rest again
           = mk_polled (Some (Ok (PDict d))) [] (add_job job_id jobs) rest)
    ∨ (∃ e, after_try Jobs add_job next_job retry jobs rest again
            = mk_polled (Some (Raise e)) [] jobs rest)) as Hafter.
  { intros next_job Hnext. unfold after_try.
    destruct (is_None next_job) eqn:Hnone.
    { destruct retry; cbn; auto. }
    apply is_None_false in Hnone.
    destruct Hnext as [-> | [Hvalid | [e He]]]; [done | |].
    - rewrite (confirm_valid Jobs add_job _ jobs Hvalid).
      destruct Hvalid as (d & -> & Hid & Hinput).
      right; right; left. exists d.
      unfold dict_get in Hid. destruct (d !! "id") as [job_id |] eqn:Hlook; [| done].
      exists job_id. split; [| done]. exists d. unfold dict_get. by rewrite Hlook.
    - unfold confirm. rewrite He. right; right; right. by exists e. }
  unfold turn. pose proof (try_block_next_job p retry) as Hnext.
  destruct (try_block p retry) as [next_job [[] | err]] eqn:Htry.
  - apply Hafter. tauto.
  - destruct retry; [by left |]. by destruct (try_block_no_retry p); rewrite Htry.
  - destruct retry; [| by right; left].
    destruct p as [e | status [body | e]]; cbn in Htry; repeat case_match; done.
  - destruct (exc_is_Exception err); [apply Hafter; tauto |].
    right; right; right. by exists err.
Qed.

(** X6.  Whatever [get_job] returns is [None], and then [retry] is false
    and nothing was tracked, or a dict with "id" and "input" present and
    not [None], and then exactly its id was added to the tracked jobs. *)
Theorem get_job_returns_tracked_job (session : list poll) (retry : bool)
    (jobs : Jobs) (v : pyval) :
  returned (get_job session retry jobs) = Some (Ok v) →
  (v = PNone ∧ retry = false ∧ job_list (get_job session retry jobs) = jobs)
  ∨ (∃ d job_id, v = PDict d ∧ d !! "id" = Some job_id ∧ valid_job v
                 ∧ job_list (get_job session retry jobs) = add_job job_id jobs).
Proof.
  induction session as [| p session IH]; [done |]. get_job_unfold.
  destruct (turn_cases p retry jobs session (get_job session retry jobs))
    as [[_ ->] | [[-> ->] | [(d & job_id & Hvalid & Hid & ->) | [e ->]]]]; cbn.
  - exact IH.
  - intros [= <-]. by left.
  - intros [= <-]. right. by exists d, job_id.
  - done.
Qed.

(** X7.  The tracked jobs change only when a job is returned: when
    [get_job] returns [None], raises or is still waiting, they are as
    before the call. *)
Theorem get_job_tracks_only_returned_jobs (session : list poll) (retry : bool)
    (jobs : Jobs) :
  (∀ d, returned (get_job session retry jobs) ≠ Some (Ok (PDict d))) →
  job_list (get_job session retry jobs) = jobs.
Proof.
  induction session as [| p session IH]; [done |]. get_job_unfold.
  destruct (turn_cases p retry jobs session (get_job session retry jobs))
    as [[_ ->] | [[-> ->] | [(d & job_id & Hvalid & Hid & ->) | [e ->]]]]; cbn.
  - exact IH.
  - done.
  - intros Hno. by destruct (Hno d).
  - done.
Qed.

End GetJobMore.

(** ** [run_job_generator]: further properties *)

Section RunJobGeneratorMore.

Variable format_exc : pyexc → string.

(** Drawing [vs] from the producer gives their envelopes, one per
    resumption, and leaves the generator at the loop's [yield]. *)
Lemma consume_yields (h : gen_handler) (vs : list pyval) :
  ∀ (it it' : iterator) (job job' : pydict) (fuel : nat),
    yields vs it job it' job' →
    consume format_exc (List.length vs + fuel) h (GLoop it) job
    = (let '(items, e, job'') := consume format_exc fuel h (GLoop it') job' in
       ((outputs vs ++ items)%list, e, job'')).
Proof.
  induction vs as [| v vs IH]; intros it it' job job' fuel Hyields.
  - destruct Hyields as [<- <-]. cbn [List.length Nat.add outputs fmap list_fmap app].
    by destruct (consume format_exc fuel h (GLoop it) job) as [[items e] job''].
  - destruct Hyields as (it1 & job1 & Hnext & Hyields).
    cbn [List.length Nat.add consume].
    rewrite (resume_loop_yield format_exc h _ _ _ _ _ Hnext).
    rewrite (IH it1 it' job1 job' fuel Hyields).
    by destruct (consume format_exc fuel h (GLoop it') job') as [[items e] job''].
Qed.

Lemma consume_start (h : gen_handler) (job job1 : pydict) (it : iterator)
    (fuel : nat) :
  producer h job = (Ok it, job1) →
  consume format_exc (S fuel) h GStart job
  = consume format_exc (S fuel) h (GLoop it) job1.
Proof.
  intros Hprod. cbn [consume]. by rewrite (resume_start format_exc h job job1 it Hprod).
Qed.

(** The turn of the loop in which the producer is exhausted. *)
Lemma resume_loop_end (h : gen_handler) (job job' : pydict) (it : iterator) :
  next it job = (Ok None, job') →
  run_job_generator format_exc h (GLoop it) job
  = (match job' !! "id" with Some _ => Ok None | None => Raise (KeyError "id") end,
     job').
Proof.
  intros Hnext. cbn [run_job_generator]. unfold finally_at_exit.
  rewrite (try_except_ok _ _ job job' None).
  - destruct (job' !! "id") as [i |] eqn:Hid.
    + by rewrite log_job_id_ok.
    + by rewrite log_job_id_raise.
  - unfold loop_turn. by erewrite bind_ok by eassumption.
Qed.

Lemma resume_loop_passes (h : gen_handler) (job job' : pydict) (it : iterator)
    (e : pyexc) :
  next it job = (Raise e, job') → exc_is_Exception e = false →
  is_Some (job' !! "id") →
  run_job_generator format_exc h (GLoop it) job = (Raise e, job').
Proof.
  intros Hnext He Hid. cbn [run_job_generator]. unfold finally_at_exit.
  rewrite (try_except_passed _ _ job job' e); [| | done].
  - by rewrite log_job_id_ok.
  - unfold loop_turn. by erewrite bind_raise by eassumption.
Qed.

(** X17.  When the producer is exhausted after the values [vs], the
    generator has yielded one [{"output": v}] per value, in order, and ends
    with no terminal item. *)
Theorem run_job_generator_exhausted (h : gen_handler) (job job1 job2 job3 : pydict)
    (it it' : iterator) (vs : list pyval) (fuel : nat) :
  producer h job = (Ok it, job1) →
  yields vs it job1 it' job2 →
  next it' job2 = (Ok None, job3) →
  is_Some (job3 !! "id") →
  (List.length vs + 1 ≤ fuel)%nat →
  consume format_exc fuel h GStart job = (outputs vs, Finished, job3).
Proof.
  intros Hprod Hyields Hnext [i Hid] Hfuel.
  replace fuel with (S (List.length vs + (fuel - List.length vs - 1)))%nat by lia.
  rewrite (consume_start h job job1 it _ Hprod).
  replace (S (List.length vs + (fuel - List.length vs - 1)))%nat
    with (List.length vs + S (fuel - List.length vs - 1))%nat by lia.
  rewrite (consume_yields h vs it it' job1 job2 _ Hyields).
  cbn [consume]. rewrite (resume_loop_end h job2 job3 it' Hnext), Hid.
  by rewrite app_nil_r.
Qed.

(** X18.  The [finally] clause reads [job["id"]]: on a job without "id"
    the generator yields every output of the producer and then, instead of
    ending, raises [KeyError]. *)
Theorem run_job_generator_exhausted_without_id (h : gen_handler)
    (job job1 job2 job3 : pydict) (it it' : iterator) (vs : list pyval) (fuel : nat) :
  producer h job = (Ok it, job1) →
  yields vs it job1 it' job2 →
  next it' job2 = (Ok None, job3) →
  job3 !! "id" = None →
  (List.length vs + 1 ≤ fuel)%nat →
  consume format_exc fuel h GStart job = (outputs vs, Failed (KeyError "id"), job3).
Proof.
  intros Hprod Hyields Hnext Hid Hfuel.
  replace fuel with (S (List.length vs + (fuel - List.length vs - 1)))%nat by lia.
  rewrite (consume_start h job job1 it _ Hprod).
  replace (S (List.length vs + (fuel - List.length vs - 1)))%nat
    with (List.length vs + S (fuel - List.length vs - 1))%nat by lia.
  rewrite (consume_yields h vs it it' job1 job2 _ Hyields).
  cbn [consume]. rewrite (resume_loop_end h job2 job3 it' Hnext), Hid.
  by rewrite app_nil_r.
Qed.

(** X19.  The generator does not read ahead: after as many resumptions as
    values received, the producer has been drawn from exactly that many
    times and the generator is suspended at the loop's [yield]. *)
Theorem run_job_generator_lazy (h : gen_handler) (job job1 job2 : pydict)
    (it it' : iterator) (v : pyval) (vs : list pyval) :
  producer h job = (Ok it, job1) →
  yields (v :: vs) it job1 it' job2 →
  consume format_exc (S (List.length vs)) h GStart job
  = (outputs (v :: vs), Suspended (GLoop it'), job2).
Proof.
  intros Hprod Hyields.
  rewrite (consume_start h job job1 it _ Hprod).
  replace (S (List.length vs)) with (List.length (v :: vs) + 0)%nat by (cbn; lia).
  rewrite (consume_yields h (v :: vs) it it' job1 job2 0 Hyields).
  cbn [consume]. by rewrite app_nil_r.
Qed.


(** X21.  An exception of the producer that is not an [Exception] is not
    turned into an error envelope: after the outputs already yielded, it
    leaves the generator. *)
Theorem run_job_generator_propagates_non_Exception (h : gen_handler)
    (job job1 job2 job3 : pydict) (it it' : iterator) (vs : list pyval)
    (e : pyexc) (fuel : nat) :
  producer h job = (Ok it, job1) →
  yields vs it job1 it' job2 →
  next it' job2 = (Raise e, job3) →
  exc_is_Exception e = false →
  is_Some (job3 !! "id") →
  (List.length vs + 1 ≤ fuel)%nat →
  consume format_exc fuel h GStart job = (outputs vs, Failed e, job3).
Proof.
  intros Hprod Hyields Hnext He Hid Hfuel.
  replace fuel with (S (List.length vs + (fuel - List.length vs - 1)))%nat by lia.
  rewrite (consume_start h job job1 it _ Hprod).
  replace (S (List.length vs + (fuel - List.length vs - 1)))%nat
    with (List.length vs + S (fuel - List.length vs - 1))%nat by lia.
  rewrite (consume_yields h vs it it' job1 job2 _ Hyields).
  cbn [consume]. rewrite (resume_loop_passes h job2 job3 it' e Hnext He Hid).
  by rewrite app_nil_r.
Qed.

(** What the generator can yield: an output envelope from the loop, or an
    error envelope from the [except] clause. *)
Lemma resume_yield_cases (h : gen_handler) (st st' : gen_state) (job job' : pydict)
    (item : pydict) :
  run_job_generator format_exc h st job = (Ok (Some (item, st')), job') →
  (∃ v it, item = {[ "output" := v ]} ∧ st' = GLoop it)
  ∨ (∃ msg, item = {[ "error" := PStr msg ]} ∧ st' = GAfterError).
Proof.
  assert (∀ (body : M (option (pydict * gen_state))),
    (∀ job0 job1 y, body job0 = (Ok (Some y), job1) →
                    ∃ v it, y = ({[ "output" := v ]}, GLoop it)) →
    finally_at_exit (try_except body (on_error format_exc)) log_job_id job
    = (Ok (Some (item, st')), job') →
    (∃ v it, item = {[ "output" := v ]} ∧ st' = GLoop it)
    ∨ (∃ msg, item = {[ "error" := PStr msg ]} ∧ st' = GAfterError)) as Hguarded.
  { intros body Hbody. unfold finally_at_exit, try_except.
    destruct (body job) as [[[y |] | e] job1] eqn:Hrun.
    - intros [= -> <-]. apply Hbody in Hrun as (v & it & [= -> ->]). left. eauto.
    - destruct (log_job_id job1) as [[[] | e] job2]; done.
    - destruct (exc_is_Exception e).
      + unfold on_error, mbind, M_bind, mret, M_ret.
        destruct (log_job_id job1) as [[[] | e'] job2].
        * intros [= <- <- <-]. right. eauto.
        * destruct (log_job_id job2) as [[[] | e''] job3]; done.
      + destruct (log_job_id job1) as [[[] | e'] job2]; done. }
  assert (∀ it job0 job1 y, loop_turn it job0 = (Ok (Some y), job1) →
                            ∃ v it', y = ({[ "output" := v ]}, GLoop it')) as Hturn.
  { intros it job0 job1 y. unfold loop_turn, mbind, M_bind, mret, M_ret.
    destruct (next it job0) as [[[[v it'] |] | e] job2]; [| done ..].
    intros [= <- <-]. eauto. }
  destruct st as [| it |]; cbn [run_job_generator].
  - apply Hguarded. intros job0 job1 y. unfold mbind at 1. unfold M_bind.
    destruct (producer h job0) as [[it | e] job2]; [| done]. apply Hturn.
  - apply Hguarded. apply Hturn.
  - unfold mbind, M_bind, mret, M_ret.
    destruct (log_job_id job) as [[[] | e] job1]; done.
Qed.

(** After the error envelope the generator yields nothing more. *)
Lemma consume_after_error (h : gen_handler) (job : pydict) (fuel : nat) :
  (consume format_exc fuel h GAfterError job).1.1 = [].
Proof.
  destruct fuel as [| fuel]; [done |]. cbn [consume run_job_generator].
  unfold mbind, M_bind, mret, M_ret.
  destruct (log_job_id job) as [[[] | e] job1]; done.
Qed.

(** X22.  Whatever the handler and the producer do, the items of the
    generator are output envelopes followed by at most one error envelope:
    nothing is ever yielded after an error. *)
Theorem run_job_generator_items_shape (h : gen_handler) (fuel : nat) :
  ∀ (st : gen_state) (job : pydict),
    ∃ vs tail,
      (consume format_exc fuel h st job).1.1 = (outputs vs ++ tail)%list
      ∧ (tail = [] ∨ ∃ msg, tail = [ {[ "error" := PStr msg ]} ]).
Proof.
  induction fuel as [| fuel IH]; intros st job.
  - exists [], []. by split; [| left].
  - cbn [consume].
    destruct (run_job_generator format_exc h st job)
      as [[[[item st'] |] | e] job'] eqn:Hrun.
    + apply resume_yield_cases in Hrun as [(v & it & -> & ->) | (msg & -> & ->)].
      * destruct (IH (GLoop it) job') as (vs & tail & Hitems & Htail).
        destruct (consume format_exc fuel h (GLoop it) job') as [[items e] job''].
        cbn [fst] in *. exists (v :: vs), tail. by rewrite Hitems.
      * pose proof (consume_after_error h job' fuel) as Hafter.
        destruct (consume format_exc fuel h GAfterError job') as [[items e] job''].
        cbn [fst] in *. rewrite Hafter.
        exists [], [ {[ "error" := PStr msg ]} ]. split; [done |]. right. by exists msg.
    + exists [], []. by split; [| left].
    + exists [], []. by split; [| left].
Qed.

End RunJobGeneratorMore.

(** ** [clean]: proofs *)

Lemma rmtree_not_directory (path : list string) :
  ∀ cwd : directory, ¬ is_directory path cwd → rmtree path cwd = cwd.
Proof.
  induction path as [| name rest IH]; intros cwd Hnot; [done |].
  cbn [rmtree]. destruct (cwd !! name) as [[content | entries] |] eqn:Hname; try done.
  destruct rest as [| name' rest].
  - destruct Hnot. exists entries. by cbn.
  - rewrite IH; [by apply insert_id |].
    intros [entries' Hres]. apply Hnot. exists entries'.
    cbn [resolve]. by rewrite Hname.
Qed.

(** [rmtree] makes no directory: one found afterwards was there before. *)
Lemma rmtree_is_directory (path : list string) :
  ∀ (removed : list string) (cwd : directory),
    is_directory path (rmtree removed cwd) → is_directory path cwd.
Proof.
  induction path as [| name rest IH]; intros removed cwd [entries Hres]; [done |].
  destruct removed as [| name' removed]; [by exists entries |].
  cbn [rmtree] in Hres.
  destruct (cwd !! name') as [[content | sub] |] eqn:Hname';
    try (by exists entries).
  destruct (decide (name' = name)) as [-> | Hne].
  - destruct removed as [| name'' removed].
    + cbn [resolve] in Hres. destruct rest; by rewrite lookup_delete_eq in Hres.
    + cbn [resolve] in Hres. rewrite lookup_insert_eq in Hres.
      destruct rest as [| name3 rest].
      * exists sub. cbn. by rewrite Hname'.
      * destruct (IH (name'' :: removed) sub) as [entries' Hres'];
          [by exists entries |].
        exists entries'. cbn [resolve]. by rewrite Hname'.
  - exists entries. cbn [resolve] in *.
    destruct removed as [| name'' removed].
    + by rewrite lookup_delete_ne in Hres.
    + by rewrite lookup_insert_ne in Hres.
Qed.

Lemma rmtree_removed (path : list string) :
  ∀ cwd : directory, ¬ is_directory path (rmtree path cwd).
Proof.
  induction path as [| name rest IH]; intros cwd [entries Hres]; [done |].
  cbn [rmtree] in Hres.
  destruct (cwd !! name) as [[content | sub] |] eqn:Hname.
  - cbn [resolve] in Hres. rewrite Hname in Hres. by destruct rest.
  - destruct rest as [| name' rest].
    + cbn [resolve] in Hres. by rewrite lookup_delete_eq in Hres.
    + cbn [resolve] in Hres. rewrite lookup_insert_eq in Hres.
      apply (IH sub). by exists entries.
  - cbn [resolve] in Hres. rewrite Hname in Hres. by destruct rest.
Qed.


Lemma rmtree_list_is_directory (folder_list : list (list string)) (path : list string) :
  ∀ cwd : directory,
    is_directory path (foldl (λ cwd folder, rmtree folder cwd) cwd folder_list) →
    is_directory path cwd.
Proof.
  induction folder_list as [| folder folder_list IH]; intros cwd Hdir; [done |].
  cbn [foldl] in Hdir. apply IH in Hdir. by apply rmtree_is_directory in Hdir.
Qed.


Lemma rmtree_list_nothing (folder_list : list (list string)) (cwd : directory) :
  Forall (λ folder, ¬ is_directory folder cwd) folder_list →
  foldl (λ cwd folder, rmtree folder cwd) cwd folder_list = cwd.
Proof.
  induction 1 as [| folder folder_list Hnot _ IH]; [done |].
  cbn [foldl]. by rewrite (rmtree_not_directory folder cwd Hnot).
Qed.

(** The lookup of a name of the working directory after one top-level
    [rmtree]. *)
Lemma rmtree_top_lookup (name name' : string) (cwd : directory) :
  rmtree [name] cwd !! name'
  = match cwd !! name with
    | Some (FsDir _) => if decide (name = name') then None else cwd !! name'
    | _ => cwd !! name'
    end.
Proof.
  cbn [rmtree]. destruct (cwd !! name) as [[content | entries] |]; try done.
  case_decide as Heq; [subst; apply lookup_delete_eq | by apply lookup_delete_ne].
Qed.

Lemma rmtree_top_lookup_ne (name name' : string) (cwd : directory) :
  name ≠ name' → rmtree [name] cwd !! name' = cwd !! name'.
Proof.
  intros Hne. rewrite rmtree_top_lookup.
  destruct (cwd !! name) as [[content | entries] |]; try done.
  by rewrite decide_False.
Qed.

(** The archive entry is not touched by the two removals before it. *)
Lemma output_zip_before_remove (cwd : directory) :
  rmtree ["output_objects"] (rmtree ["input_objects"] cwd) !! "output.zip"
  = cwd !! "output.zip".
Proof. by rewrite !rmtree_top_lookup_ne. Qed.



Lemma rmtree_list_absent (folder_list : list (list string)) (name : string) :
  ∀ cwd : directory,
    cwd !! name = None →
    foldl (λ cwd folder, rmtree folder cwd) cwd folder_list !! name = None.
Proof.
  induction folder_list as [| folder folder_list IH]; intros cwd Habsent; [done |].
  cbn [foldl]. apply IH.
  destruct folder as [| name' rest]; [done |]. cbn [rmtree].
  destruct (cwd !! name') as [[content | sub] |] eqn:Hname'; try done.
  assert (name' ≠ name) by (intros ->; congruence).
  destruct rest; by simplify_map_eq.
Qed.

Lemma rmtree_list_removed (folder_list : list (list string)) :
  ∀ cwd : directory,
    Forall (λ folder,
              ¬ is_directory folder
                  (foldl (λ cwd folder, rmtree folder cwd) cwd folder_list))
           folder_list.
Proof.
  induction folder_list as [| folder folder_list IH]; intros cwd; [by constructor |].
  cbn [foldl]. constructor; [| apply IH].
  intros Hdir. apply rmtree_list_is_directory in Hdir. by apply rmtree_removed in Hdir.
Qed.

(** The working directory when [clean] reaches its loop: the two folders
    are no directories and the archive is absent. *)
Lemma clean_Ok_inv (folder_list : list (list string)) (cwd cwd' : directory) :
  clean folder_list cwd = (Ok (), cwd') →
  ∃ before_loop : directory,
    cwd' = foldl (λ cwd folder, rmtree folder cwd) before_loop folder_list
    ∧ before_loop !! "output.zip" = None
    ∧ ¬ is_directory ["input_objects"] before_loop
    ∧ ¬ is_directory ["output_objects"] before_loop.
Proof.
  unfold clean, os_path_exists, os_remove.
  pose proof (rmtree_removed ["output_objects"] (rmtree ["input_objects"] cwd)) as Hout.
  assert (¬ is_directory ["input_objects"]
            (rmtree ["output_objects"] (rmtree ["input_objects"] cwd))) as Hin.
  { intros Hdir. apply rmtree_is_directory in Hdir. by apply rmtree_removed in Hdir. }
  set (c := rmtree ["output_objects"] (rmtree ["input_objects"] cwd)) in *.
  case_bool_decide as Hexists.
  - destruct (c !! "output.zip") as [[content | entries] |] eqn:Hzip; [| done ..].
    intros [= <-]. exists (delete "output.zip" c).
    split; [done |]. split; [by apply lookup_delete_eq |].
    unfold is_directory in *. cbn [resolve] in *.
    by rewrite !lookup_delete_ne.
  - intros [= <-]. exists c. split; [done |]. split; [| done].
    by apply eq_None_not_Some.
Qed.

(** [clean] changes nothing when there is nothing to remove. *)
Lemma clean_unchanged (folder_list : list (list string)) (cwd : directory) :
  ¬ is_directory ["input_objects"] cwd →
  ¬ is_directory ["output_objects"] cwd →
  cwd !! "output.zip" = None →
  Forall (λ folder, ¬ is_directory folder cwd) folder_list →
  clean folder_list cwd = (Ok (), cwd).
Proof.
  intros Hin Hout Hzip Hfolders. unfold clean, os_path_exists.
  rewrite (rmtree_not_directory ["input_objects"] cwd Hin).
  rewrite (rmtree_not_directory ["output_objects"] cwd Hout).
  rewrite bool_decide_eq_false_2 by (by rewrite Hzip; intros [? ?]).
  by rewrite rmtree_list_nothing.
Qed.

(** X23.  [clean] raises exactly when "output.zip" is a directory:
    [os.path.exists] is true for it and [os.remove] refuses it.  The two
    object folders are removed by then and the folders of [folder_list] are
    not.  In every other case [clean] returns. *)
Theorem clean_raises_iff_archive_is_directory (folder_list : list (list string))
    (cwd : directory) :
  (is_directory ["output.zip"] cwd →
   ∃ e, clean folder_list cwd
        = (Raise e, rmtree ["output_objects"] (rmtree ["input_objects"] cwd)))
  ∧ (¬ is_directory ["output.zip"] cwd →
     ∃ cwd', clean folder_list cwd = (Ok (), cwd')).
Proof.
  unfold is_directory, clean, os_path_exists, os_remove. cbn [resolve].
  rewrite <- (output_zip_before_remove cwd).
  set (c := rmtree ["output_objects"] (rmtree ["input_objects"] cwd)).
  split.
  - intros [entries Hzip]. rewrite Hzip.
    rewrite bool_decide_eq_true_2 by done. eauto.
  - intros Hzip. case_bool_decide as Hexists; [| eauto].
    destruct (c !! "output.zip") as [[content | entries] |] eqn:Hlook; eauto.
    + destruct Hzip. eauto.
    + by destruct Hexists.
Qed.


(** X25.  Absence is tolerated: when none of "input_objects",
    "output_objects", "output.zip" and the folders of [folder_list], each
    given by a path of plain names, exists, [clean] returns and the working
    directory is unchanged. *)
Theorem clean_tolerates_absence (folder_list : list (list string)) (cwd : directory) :
  Forall plain_path folder_list →
  cwd !! "input_objects" = None →
  cwd !! "output_objects" = None →
  cwd !! "output.zip" = None →
  Forall (λ folder, resolve folder cwd = None) folder_list →
  clean folder_list cwd = (Ok (), cwd).
Proof.
  intros _ Hin Hout Hzip Hfolders. apply clean_unchanged; try done.
  - intros [entries Hdir]. cbn in Hdir. congruence.
  - intros [entries Hdir]. cbn in Hdir. congruence.
  - eapply Forall_impl; [exact Hfolders |].
    intros folder Hnone [entries Hdir]. congruence.
Qed.

(** X26.  [clean] is idempotent: run again on the working directory it
    left, it returns and changes nothing. *)
Theorem clean_idempotent (folder_list : list (list string)) (cwd cwd' : directory) :
  clean folder_list cwd = (Ok (), cwd') →
  clean folder_list cwd' = (Ok (), cwd').
Proof.
  intros Hclean.
  apply clean_Ok_inv in Hclean as (c & -> & Hzip & Hin & Hout).
  apply clean_unchanged.
  - intros Hdir. by apply rmtree_list_is_directory in Hdir.
  - intros Hdir. by apply rmtree_list_is_directory in Hdir.
  - by apply rmtree_list_absent.
  - apply rmtree_list_removed.
Qed.



(** *** Instances of the further properties *)

Lemma get_job_status_not_200_witness :
  sample_get_job [Response 400 (Ok PNone)] true []
  = sent (_job_get_url (list pyval) list_get_job_list
            "https://api.example/v2/job-take?gpu=A" [])
      (sample_get_job [] true [])
  ∧ sample_get_job [Response 400 (Ok PNone)] false []
    = mk_polled (Some (Ok PNone))
        [_job_get_url (list pyval) list_get_job_list
           "https://api.example/v2/job-take?gpu=A" []] [] [].
Proof. apply get_job_status_not_200. lia. Defined.

Lemma get_job_swallows_exception_witness :
  sample_get_job [GetRaises (ValueError "connection reset")] true []
  = sent (_job_get_url (list pyval) list_get_job_list
            "https://api.example/v2/job-take?gpu=A" [])
      (sample_get_job [] true [])
  ∧ sample_get_job [GetRaises (ValueError "connection reset")] false []
    = mk_polled (Some (Ok PNone))
        [_job_get_url (list pyval) list_get_job_list
           "https://api.example/v2/job-take?gpu=A" []] [] [].
Proof.
  apply (get_job_swallows_exception _ _ _ _ _ (ValueError "connection reset")).
  - left. reflexivity.
  - reflexivity.
Defined.

Lemma get_job_propagates_non_Exception_witness :
  sample_get_job [Response 200 (Raise KeyboardInterrupt)] true []
  = mk_polled (Some (Raise KeyboardInterrupt))
      [_job_get_url (list pyval) list_get_job_list
         "https://api.example/v2/job-take?gpu=A" []] [] [].
Proof.
  apply get_job_propagates_non_Exception.
  - right. reflexivity.
  - reflexivity.
Defined.

Lemma get_job_accepts_valid_job_witness :
  sample_get_job [Response 200 (Ok (PDict sample_job))] true []
  = mk_polled (Some (Ok (PDict sample_job)))
      [_job_get_url (list pyval) list_get_job_list
         "https://api.example/v2/job-take?gpu=A" []]
      (list_add_job (PStr "job-1") []) [].
Proof.
  apply (get_job_accepts_valid_job _ _ _ _ sample_job (PStr "job-1")
           (PDict {[ "prompt" := PStr "hi" ]})).
  - vm_compute. reflexivity.
  - discriminate.
  - vm_compute. reflexivity.
  - discriminate.
Defined.

Lemma get_job_returns_tracked_job_witness :
  (PDict sample_job = PNone ∧ true = false
   ∧ job_list (sample_get_job [Response 200 (Ok (PDict sample_job))] true []) = [])
  ∨ (∃ d job_id, PDict sample_job = PDict d ∧ d !! "id" = Some job_id
                 ∧ valid_job (PDict sample_job)
                 ∧ job_list (sample_get_job [Response 200 (Ok (PDict sample_job))] true [])
                   = list_add_job job_id []).
Proof.
  apply get_job_returns_tracked_job. vm_compute. reflexivity.
Defined.

Lemma get_job_tracks_only_returned_jobs_witness :
  job_list (sample_get_job [Response 204 (Ok PNone)] false [PStr "job-0"])
  = [PStr "job-0"].
Proof.
  apply get_job_tracks_only_returned_jobs.
  intros d H. vm_compute in H. discriminate H.
Defined.

Lemma run_job_wraps_non_dict_witness :
  sample_run_job (returning (PBool false)) sample_job
  = (Ok {[ "output" := PBool false ]}, sample_job).
Proof.
  apply run_job_wraps_non_dict.
  - has_id.
  - vm_compute. reflexivity.
  - has_id.
  - discriminate.
  - reflexivity.
  - reflexivity.
  - vm_compute. reflexivity.
Defined.

Lemma run_job_result_keys_witness :
  dom ({[ "output" := PDict {[ "foo" := PInt 1 ]}; "stopPod" := PBool true ]} : pydict)
    ⊆ ({[ "output"; "error"; "stopPod" ]} : gset string)
  ∧ (({[ "output" := PDict {[ "foo" := PInt 1 ]}; "stopPod" := PBool true ]} : pydict)
       !! "stopPod" = None
     ∨ ({[ "output" := PDict {[ "foo" := PInt 1 ]}; "stopPod" := PBool true ]} : pydict)
         !! "stopPod" = Some (PBool true)).
Proof.
  apply (run_job_result_keys 0 50 sample_str_error
           accept_all sample_dumps sample_format_exc
           sample_environ "1.2.3"
           (returning (PDict {[ "foo" := PInt 1; "refresh_worker" := PBool true ]}))
           sample_job sample_job).
  vm_compute. reflexivity.
Defined.

Lemma run_job_output_dict_witness :
  ({[ "foo" := PInt 1 ]} : pydict) ≠ ∅
  ∧ ({[ "foo" := PInt 1 ]} : pydict) !! "error" = None
  ∧ ({[ "foo" := PInt 1 ]} : pydict) !! "refresh_worker" = None.
Proof.
  apply (run_job_output_dict 0 50 sample_str_error
           accept_all sample_dumps sample_format_exc
           sample_environ "1.2.3"
           (returning (PDict {[ "foo" := PInt 1; "error" := PStr "partial";
                                "refresh_worker" := PBool true ]}))
           sample_job sample_job
           {[ "output" := PDict {[ "foo" := PInt 1 ]}; "error" := PStr "partial";
              "stopPod" := PBool true ]}).
  - vm_compute. reflexivity.
  - vm_compute. reflexivity.
Defined.

Lemma run_job_handler_removes_id_witness :
  sample_run_job (forgetful (PInt 1)) sample_job
  = (Raise (KeyError "id"), (invoke (forgetful (PInt 1)) sample_job).2).
Proof.
  apply run_job_handler_removes_id.
  - has_id.
  - vm_compute. reflexivity.
Defined.



Lemma run_job_generator_exhausted_witness :
  consume sample_format_exc 3 (finite_generator [PInt 1; PInt 2]) GStart sample_job
  = (outputs [PInt 1; PInt 2], Finished, sample_job).
Proof.
  eapply (run_job_generator_exhausted sample_format_exc
            (finite_generator [PInt 1; PInt 2]) sample_job sample_job sample_job
            sample_job (yields_then_stop [PInt 1; PInt 2]) (yields_then_stop [])
            [PInt 1; PInt 2] 3).
  - reflexivity.
  - cbn. do 2 (eexists _, _; split; [reflexivity |]). split; reflexivity.
  - reflexivity.
  - has_id.
  - cbn. lia.
Defined.

Lemma run_job_generator_exhausted_without_id_witness :
  consume sample_format_exc 3 (finite_generator [PInt 1; PInt 2]) GStart job_without_id
  = (outputs [PInt 1; PInt 2], Failed (KeyError "id"), job_without_id).
Proof.
  eapply (run_job_generator_exhausted_without_id sample_format_exc
            (finite_generator [PInt 1; PInt 2]) job_without_id job_without_id
            job_without_id job_without_id
            (yields_then_stop [PInt 1; PInt 2]) (yields_then_stop [])
            [PInt 1; PInt 2] 3).
  - reflexivity.
  - cbn. do 2 (eexists _, _; split; [reflexivity |]). split; reflexivity.
  - reflexivity.
  - vm_compute. reflexivity.
  - cbn. lia.
Defined.

Lemma run_job_generator_lazy_witness :
  consume sample_format_exc 2 (finite_generator [PInt 1; PInt 2; PInt 3]) GStart
    sample_job
  = (outputs [PInt 1; PInt 2], Suspended (GLoop (yields_then_stop [PInt 3])),
     sample_job).
Proof.
  apply (run_job_generator_lazy sample_format_exc
           (finite_generator [PInt 1; PInt 2; PInt 3]) sample_job sample_job sample_job
           (yields_then_stop [PInt 1; PInt 2; PInt 3]) (yields_then_stop [PInt 3])
           (PInt 1) [PInt 2]).
  - reflexivity.
  - cbn. do 2 (eexists _, _; split; [reflexivity |]). split; reflexivity.
Defined.


Lemma run_job_generator_propagates_non_Exception_witness :
  consume sample_format_exc 2
    (sync_generator [PInt 1] KeyboardInterrupt) GStart sample_job
  = (outputs [PInt 1], Failed KeyboardInterrupt, sample_job).
Proof.
  eapply (run_job_generator_propagates_non_Exception sample_format_exc
            (sync_generator [PInt 1] KeyboardInterrupt)
            sample_job sample_job sample_job sample_job
            (yields_then_raise [PInt 1] KeyboardInterrupt)
            (yields_then_raise [] KeyboardInterrupt) [PInt 1] KeyboardInterrupt 2).
  - reflexivity.
  - cbn. eexists _, _. split; [reflexivity |]. split; reflexivity.
  - reflexivity.
  - reflexivity.
  - has_id.
  - cbn. lia.
Defined.


Lemma clean_tolerates_absence_witness :
  clean [["scratch"]] {[ "handler.py" := FsFile "code" ]}
  = (Ok (), {[ "handler.py" := FsFile "code" ]}).
Proof.
  apply clean_tolerates_absence.
  - by repeat constructor.
  - vm_compute. reflexivity.
  - vm_compute. reflexivity.
  - vm_compute. reflexivity.
  - repeat constructor.
Defined.

Lemma clean_idempotent_witness :
  clean [["scratch"; "tmp"]] (clean [["scratch"; "tmp"]] sample_cwd).2
  = (Ok (), (clean [["scratch"; "tmp"]] sample_cwd).2).
Proof.
  apply (clean_idempotent [["scratch"; "tmp"]] sample_cwd).
  vm_compute. reflexivity.
Defined.


